(** * KubernetesObjectApi: dynamic resource resolution and URI construction

    A shallow embedding of the generic object client (class
    [KubernetesObjectApi]): resource discovery with its per-apiVersion
    cache, construction of the resource URI, header generation, the six
    object operations, the response decoding of [requestPromise] and the
    callback wrapper of [watch].

    Conventions of the embedding.
    - A JavaScript string is a [string] of bytes (the UTF-8 form of the
      text).  [toLowerCase] and [toUpperCase] act on the ASCII letters and
      leave every other byte as it is; [encodeURIComponent] escapes byte by
      byte, which is what the JavaScript function does on well-formed text.
    - An optional property ([x?: T]) is an [option]; [None] is [undefined].
      A value typed [any] is [any := option json].
    - The promise returned by an [async] method is an [Outcome]: resolved,
      rejected, or never settled.
    - The resource cache is an object literal used as a map: a [gmap] of
      the properties assigned to it, looked up together with the names
      every object inherits.  The body of a discovery answer is untyped;
      it is kept as the search of its [resources] can observe it.
    - The mutable state of the client (the resource cache) and the requests
      handed to the transport are threaded explicitly through [ApiState];
      the caller's [spec] object, which [specUriPath] mutates, is returned
      next to the outcome. *)

From Stdlib Require Import ZArith Ascii String List Bool DecimalString.
From stdpp Require Import base option list strings gmap.

Local Open Scope string_scope.
Local Open Scope list_scope.
Local Open Scope Z_scope.

(** ** The JavaScript string functions the client calls *)

Module JS.

Definition isUpper (c : ascii) : bool :=
  let n := nat_of_ascii c in (Nat.leb 65 n && Nat.leb n 90)%bool.

Definition isLower (c : ascii) : bool :=
  let n := nat_of_ascii c in (Nat.leb 97 n && Nat.leb n 122)%bool.

Definition isDigit (c : ascii) : bool :=
  let n := nat_of_ascii c in (Nat.leb 48 n && Nat.leb n 57)%bool.

Definition lowerChar (c : ascii) : ascii :=
  if isUpper c then ascii_of_nat (nat_of_ascii c + 32) else c.

Definition upperChar (c : ascii) : ascii :=
  if isLower c then ascii_of_nat (nat_of_ascii c - 32) else c.

Fixpoint mapChars (f : ascii -> ascii) (s : string) : string :=
  match s with
  | EmptyString => EmptyString
  | String c r => String (f c) (mapChars f r)
  end.

(** [s.toLowerCase()] *)
Definition toLowerCase (s : string) : string := mapChars lowerChar s.

(** [s.toUpperCase()] *)
Definition toUpperCase (s : string) : string := mapChars upperChar s.

(** [s.charAt(0)] *)
Definition charAt0 (s : string) : string :=
  match s with
  | EmptyString => EmptyString
  | String c _ => String c EmptyString
  end.

(** [s.slice(1)] *)
Definition slice1 (s : string) : string :=
  match s with
  | EmptyString => EmptyString
  | String _ r => r
  end.

(** [s.includes(c)] for a one-character needle *)
Fixpoint includes (c : ascii) (s : string) : bool :=
  match s with
  | EmptyString => false
  | String d r => if Ascii.eqb d c then true else includes c r
  end.

(** [s.split(c)] for a one-character separator: never the empty list *)
Fixpoint split (c : ascii) (s : string) : list string :=
  match s with
  | EmptyString => [EmptyString]
  | String d r =>
      if Ascii.eqb d c then EmptyString :: split c r
      else match split c r with
           | [] => [String d EmptyString]
           | w :: ws => String d w :: ws
           end
  end.

(** [parts.join(sep)] *)
Definition join (sep : string) (parts : list string) : string :=
  String.concat sep parts.

Definition hexDigit (n : nat) : ascii :=
  if Nat.ltb n 10 then ascii_of_nat (48 + n) else ascii_of_nat (55 + n).

(** [%XX] with upper-case hexadecimal digits *)
Definition percentEncode (c : ascii) : string :=
  let n := nat_of_ascii c in
  String "%" (String (hexDigit (Nat.div n 16))
                (String (hexDigit (Nat.modulo n 16)) EmptyString)).

Definition isMark (c : ascii) : bool :=
  existsb (Ascii.eqb c) ["-"; "_"; "."; "!"; "~"; "*"; "'"; "("; ")"]%char.

(** The characters [encodeURIComponent] leaves alone:
    [A-Z a-z 0-9 - _ . ! ~ * ' ( )]. *)
Definition isUnreserved (c : ascii) : bool :=
  (isUpper c || isLower c || isDigit c || isMark c)%bool.

Fixpoint encodeURIComponent (s : string) : string :=
  match s with
  | EmptyString => EmptyString
  | String c r =>
      if isUnreserved c then String c (encodeURIComponent r)
      else percentEncode c +:+ encodeURIComponent r
  end.

(** Truthiness of an optional string: [undefined] and [''] are falsy. *)
Definition truthy (s : option string) : bool :=
  match s with
  | Some EmptyString | None => false
  | Some _ => true
  end.

End JS.

(** ** Untyped values *)

#[local] Set Warnings "-register-all".

Inductive json : Type :=
| JNull
| JBool (b : bool)
| JNum (n : Z)
| JStr (s : string)
| JArr (items : list json)
| JObj (fields : list (string * json)).

(** A value of type [any]; [None] is [undefined]. *)
Definition any : Type := option json.

Fixpoint assoc (k : string) (fields : list (string * json)) : option json :=
  match fields with
  | [] => None
  | (k', v) :: r => if String.eqb k' k then Some v else assoc k r
  end.

(** ** Errors and promise outcomes *)

Record IncomingMessage := {
  statusCode : option Z;
  statusMessage : option string
}.

(** The values the client throws or rejects with.  [Error], [TypeError] and
    [HttpError] are instances of [Error] and carry a [message]; [Thrown] is
    any other rejection value. *)
Inductive JsError : Type :=
| Error (message : string)
| TypeError (message : string)
| HttpError (message : string) (response : IncomingMessage) (body : any)
            (code : option Z)
| Thrown (value : json).

Inductive Result (A : Type) : Type :=
| Ok (a : A)
| Throw (e : JsError).
Arguments Ok {A} a.
Arguments Throw {A} e.

Inductive Outcome (A : Type) : Type :=
| Resolved (a : A)
| Rejected (e : JsError)
| Pending.
Arguments Resolved {A} a.
Arguments Rejected {A} e.
Arguments Pending {A}.

(** [v.k] for [k] one of the property names the client reads off a response
    body ([apiVersion], [kind]): reading a property of [undefined] or [null]
    throws; strings, numbers, booleans and arrays have no such property. *)
Definition getProp (v : any) (k : string) : Result any :=
  match v with
  | None => Throw (TypeError "Cannot read properties of undefined")
  | Some JNull => Throw (TypeError "Cannot read properties of null")
  | Some (JObj fields) => Ok (assoc k fields)
  | Some _ => Ok None
  end.

(** String conversion of a value inside a template literal. *)
Fixpoint jsToString (v : json) : string :=
  match v with
  | JNull => "null"
  | JBool true => "true"
  | JBool false => "false"
  | JNum n => NilZero.string_of_int (Z.to_int n)
  | JStr s => s
  | JArr items =>
      JS.join ","
        (map (fun x => match x with JNull => "" | _ => jsToString x end) items)
  | JObj _ => "[object Object]"
  end.

(** ** Data model *)

(** [V1ObjectMeta]: the two properties the client reads, and the others. *)
Record V1ObjectMeta := {
  meta_name : option string;
  meta_namespace : option string;
  meta_rest : list (string * json)
}.

(** [KubernetesObject]: [apiVersion?], [kind?], [metadata?], and whatever
    else the object carries. *)
Record KubernetesObject := {
  obj_apiVersion : option string;
  obj_kind : option string;
  obj_metadata : option V1ObjectMeta;
  obj_rest : list (string * json)
}.

(** The object literal [{}] assigned to [spec.metadata]. *)
Definition emptyMeta : V1ObjectMeta :=
  {| meta_name := None; meta_namespace := None; meta_rest := [] |}.

(** [V1APIResource], an entry of a discovery response. *)
Record V1APIResource := {
  res_kind : string;
  res_name : string;
  res_namespaced : bool;
  res_singularName : string;
  res_verbs : list string
}.

(** A decoded discovery body ([V1APIResourceList]) as the resolver can
    observe it, through [body.resources.find((r) => r.kind === kind)]: the
    entries the search can reach, in order, and the message of the
    [TypeError] the search throws once it has passed them without a match
    ([resources] is no array, or an entry is [null]); [None] when the search
    runs to the end of the array. *)
Record V1APIResourceList := {
  rl_apiVersion : option string;
  rl_groupVersion : string;
  rl_kind : option string;
  rl_resources : list V1APIResource;
  rl_throws : option string
}.

(** [KubernetesApiAction] *)
Inductive KubernetesApiAction : Type :=
| ActionCreate
| ActionDelete
| ActionPatch
| ActionRead
| ActionList
| ActionReplace.

Record GroupVersion := {
  group : string;
  version : string
}.

(** [KubernetesPatchStrategies] *)
Module KubernetesPatchStrategies.
Definition JsonPatch : string := "application/json-patch+json".
Definition MergePatch : string := "application/merge-patch+json".
Definition StrategicMergePatch : string :=
  "application/strategic-merge-patch+json".
End KubernetesPatchStrategies.

(** [KubernetesEventType] *)
Inductive KubernetesEventType : Type :=
| ADDED
| MODIFIED
| DELETED
| BOOKMARK
| ERROR.

(** [WatchObject<T>] *)
Record WatchObject := {
  wo_type : KubernetesEventType;
  wo_object : any
}.

Record WatchOptions := {
  allowWatchBookmarks : option bool;
  resourceVersion : option string
}.

(** One invocation of a [WatchCallback]: [(phase, apiObj, watchObj?)]. *)
Record WatchCall := {
  wc_phase : KubernetesEventType;
  wc_apiObj : any;
  wc_watchObj : option WatchObject
}.

(** Modelled from the spec: the watch session of [./watch] (class [Watch]),
    which is not part of the sources at hand.  Opening a session on a path
    either fails, or yields the events of the stream, each decoded with the
    generic shape and handed to the callback one at a time in arrival
    order. *)
Record Watch := {
  watch_session : string -> WatchOptions -> Result (list WatchCall)
}.

(** [request.Options] as the client fills it. *)
Record RequestOptions := {
  method : string;
  qs : gmap string any;
  headers : gmap string string;
  uri : string;
  useQuerystring : bool;
  json_flag : bool;
  body : option any
}.

(** What the transport answers to a request: it fails (authentication,
    an interceptor, the connection), or a response arrives with its parsed
    body. *)
Inductive NetReply : Type :=
| NetFailure (error : JsError)
| NetResponse (response : IncomingMessage) (body : any).

(** [{ body, response }] *)
Record ResponseResult := {
  rr_body : any;
  rr_response : IncomingMessage
}.

(** [options: { headers }] *)
Record CallOptions := {
  opt_headers : gmap string string
}.

(** The fields of the client. *)
Record KubernetesObjectApi := {
  basePath : string;
  _defaultHeaders : gmap string string;
  _useQuerystring : bool;
  defaultNamespace : string;
  apiVersionResourceCache : gmap string V1APIResourceList;
  watcher : option Watch
}.

(** The client together with the requests handed to the transport so far,
    oldest first. *)
Record ApiState := {
  client : KubernetesObjectApi;
  requests : list RequestOptions
}.

(** The services the client calls into: the object serializer, the HTTP
    transport (authentication and interceptors included),
    [new URL(s).pathname], and the message the constructor of [HttpError]
    (a class of the generated [./api] module) gives its instances. *)
Record Runtime := {
  serialize : any -> string -> any;
  deserialize : any -> string -> any;
  transport : list RequestOptions -> RequestOptions -> NetReply;
  urlPathname : string -> Result string;
  httpErrorMessage : string
}.

(** ** Small helpers *)

(** [e.message] and its assignment, for instances of [Error]. *)
Definition isError (e : JsError) : bool :=
  match e with
  | Thrown _ => false
  | _ => true
  end.

Definition messageOf (e : JsError) : string :=
  match e with
  | Error m | TypeError m | HttpError m _ _ _ => m
  | Thrown _ => ""
  end.

Definition setMessage (m : string) (e : JsError) : JsError :=
  match e with
  | Error _ => Error m
  | TypeError _ => TypeError m
  | HttpError _ r b c => HttpError m r b c
  | Thrown v => Thrown v
  end.

(** The JavaScript view of a [KubernetesObject]. *)
Definition optField (k : string) (v : option string) : list (string * json) :=
  match v with
  | Some s => [(k, JStr s)]
  | None => []
  end.

Definition metaToJson (m : V1ObjectMeta) : json :=
  JObj (optField "name" (meta_name m)
        ++ optField "namespace" (meta_namespace m)
        ++ meta_rest m).

Definition objectToJson (o : KubernetesObject) : json :=
  JObj (optField "apiVersion" (obj_apiVersion o)
        ++ optField "kind" (obj_kind o)
        ++ match obj_metadata o with
           | Some m => [("metadata", metaToJson m)]
           | None => []
           end
        ++ obj_rest o).

(** [if (v !== undefined) { params.k = v; }] *)
Definition setIfDefined (k : string) (v : option any) (params : gmap string any)
  : gmap string any :=
  match v with
  | Some x => <[k := x]> params
  | None => params
  end.

Definition with_cache (c : KubernetesObjectApi)
  (cache : gmap string V1APIResourceList) : KubernetesObjectApi :=
  {| basePath := basePath c;
     _defaultHeaders := _defaultHeaders c;
     _useQuerystring := _useQuerystring c;
     defaultNamespace := defaultNamespace c;
     apiVersionResourceCache := cache;
     watcher := watcher c |}.

Definition with_apiVersion (o : KubernetesObject) (v : string) : KubernetesObject :=
  {| obj_apiVersion := Some v;
     obj_kind := obj_kind o;
     obj_metadata := obj_metadata o;
     obj_rest := obj_rest o |}.

Definition with_metadata (o : KubernetesObject) (m : V1ObjectMeta) : KubernetesObject :=
  {| obj_apiVersion := obj_apiVersion o;
     obj_kind := obj_kind o;
     obj_metadata := Some m;
     obj_rest := obj_rest o |}.

Definition with_namespace (m : V1ObjectMeta) (ns : string) : V1ObjectMeta :=
  {| meta_name := meta_name m;
     meta_namespace := Some ns;
     meta_rest := meta_rest m |}.

(** ** The client *)

(** Return root of API path up to API version. *)
Definition apiVersionPath (this : KubernetesObjectApi) (apiVersion : string) : string :=
  let api := if JS.includes "/" apiVersion then "apis" else "api" in
  JS.join "/" [basePath this; api; apiVersion].

(** Merge default headers and provided headers; [action] defaults to
    ['GET'].  [Object.assign(headers, optionsHeaders)] lets the provided
    headers win, key by key. *)
Definition generateHeaders (this : KubernetesObjectApi)
  (optionsHeaders : gmap string string) (action : option string)
  : gmap string string :=
  let action := default "GET" action in
  let headers := _defaultHeaders this in
  let headers := <["accept" := "application/json"]> headers in
  let headers :=
    if String.eqb action "PATCH"
    then <["content-type" := KubernetesPatchStrategies.StrategicMergePatch]> headers
    else headers in
  optionsHeaders ∪ headers.

Definition groupVersion (apiVersion : string) : GroupVersion :=
  match JS.split "/" apiVersion with
  | [_] => {| group := "core"; version := apiVersion |}
  | v => {| group := nth 0 v ""; version := nth 1 v "" |}
  end.

(** The name of the serialization type of [(apiVersion, kind)].  At the call
    in [requestPromise] the arguments are properties of a body typed [any]:
    an [apiVersion] that is not a string has no [split]. *)
Definition getSerializationType (apiVersion kind : any) : Result string :=
  match apiVersion, kind with
  | None, _ | _, None => Ok "KubernetesObject"
  | Some (JStr apiVersion), Some kind =>
      let gv := groupVersion apiVersion in
      let version :=
        JS.toUpperCase (JS.charAt0 (version gv)) +:+ JS.slice1 (version gv) in
      Ok (version +:+ jsToString kind)
  | Some _, Some _ => Throw (TypeError "apiVersion.split is not a function")
  end.

(** [response.statusCode && response.statusCode >= 200 && response.statusCode <= 299] *)
Definition is2xx (code : option Z) : bool :=
  match code with
  | Some c => (negb (c =? 0) && (200 <=? c) && (c <=? 299))%bool
  | None => false
  end.

Definition record_request (r : RequestOptions) (s : ApiState) : ApiState :=
  {| client := client s; requests := requests s ++ [r] |}.

Definition set_cache (apiVersion : string) (l : V1APIResourceList) (s : ApiState)
  : ApiState :=
  {| client :=
       with_cache (client s) (<[apiVersion := l]> (apiVersionResourceCache (client s)));
     requests := requests s |}.

(** [resources.find((r) => r.kind === kind)] over the entries the search
    can reach. *)
Definition findKind (kind : string) (l : V1APIResourceList) : option V1APIResource :=
  List.find (fun r => String.eqb (res_kind r) kind) (rl_resources l).

(** Truthiness of a value: [undefined], [null], [false], [0] and [''] are
    falsy. *)
Definition truthyValue (v : any) : bool :=
  match v with
  | None => false
  | Some JNull => false
  | Some (JBool b) => b
  | Some (JNum n) => negb (n =? 0)
  | Some (JStr s) => negb (String.eqb s "")
  | Some (JArr _) => true
  | Some (JObj _) => true
  end.

(** An element of [parts] as [parts.join] renders it: nothing for
    [undefined] and [null], its string conversion otherwise. *)
Definition joinText (v : any) : string :=
  match v with
  | None => ""
  | Some JNull => ""
  | Some j => jsToString j
  end.

Definition stringsOf (v : any) : list string :=
  match v with
  | Some (JArr items) =>
      omap (fun j => match j with JStr s => Some s | _ => None end) items
  | _ => []
  end.

(** An entry of a discovery body whose [kind] is the string [kind], as the
    client reads it: [namespaced] for its truthiness, [name] as an element
    of the [parts] it joins. *)
Definition asV1APIResource (kind : string) (fields : list (string * json))
  : V1APIResource :=
  {| res_kind := kind;
     res_name := joinText (assoc "name" fields);
     res_namespaced := truthyValue (assoc "namespaced" fields);
     res_singularName := joinText (assoc "singularName" fields);
     res_verbs := stringsOf (assoc "verbs" fields) |}.

(** The run of [find((r) => r.kind === kind)] over the elements of an
    array, whatever the kind asked for: reading [r.kind] throws on [null];
    an element that is no object, or whose [kind] is no string, is equal to
    no kind and is passed over. *)
Fixpoint reachable (items : list json) : list V1APIResource * option string :=
  match items with
  | [] => ([], None)
  | JNull :: _ => ([], Some "Cannot read properties of null (reading 'kind')")
  | JObj fields :: rest =>
      let '(entries, throws) := reachable rest in
      match assoc "kind" fields with
      | Some (JStr kind) => (asV1APIResource kind fields :: entries, throws)
      | _ => (entries, throws)
      end
  | _ :: rest => reachable rest
  end.

(** [body.resources.find] on a body typed [any]: reading [resources] throws
    on [undefined] and [null]; a string, a number, a boolean and an array
    have no [resources], and neither has an object without that property;
    [resources] that is no array has no [find] to call. *)
Definition searchOf (v : any) : list V1APIResource * option string :=
  match v with
  | None => ([], Some "Cannot read properties of undefined (reading 'resources')")
  | Some JNull => ([], Some "Cannot read properties of null (reading 'resources')")
  | Some (JObj fields) =>
      match assoc "resources" fields with
      | Some (JArr items) => reachable items
      | Some JNull => ([], Some "Cannot read properties of null (reading 'find')")
      | None => ([], Some "Cannot read properties of undefined (reading 'find')")
      | Some _ =>
          ([], Some "this.apiVersionResourceCache[apiVersion].resources.find is not a function")
      end
  | Some _ => ([], Some "Cannot read properties of undefined (reading 'find')")
  end.

Definition stringOf (v : any) : option string :=
  match v with
  | Some (JStr s) => Some s
  | _ => None
  end.

(** The body of a discovery response as the resolver observes it. *)
Definition asV1APIResourceList (v : any) : V1APIResourceList :=
  let fields := match v with Some (JObj fields) => fields | _ => [] end in
  {| rl_apiVersion := stringOf (assoc "apiVersion" fields);
     rl_groupVersion := default "" (stringOf (assoc "groupVersion" fields));
     rl_kind := stringOf (assoc "kind" fields);
     rl_resources := fst (searchOf v);
     rl_throws := snd (searchOf v) |}.

(** [l.resources.find((r) => r.kind === kind)]: the first entry of the kind
    when the search reaches one, else the exception it ends in, else
    [undefined]. *)
Definition findIn (kind : string) (l : V1APIResourceList)
  : Result (option V1APIResource) :=
  match findKind kind l with
  | Some r => Ok (Some r)
  | None =>
      match rl_throws l with
      | Some message => Throw (TypeError message)
      | None => Ok None
      end
  end.

(** The cache is the object literal [{}]: besides the properties assigned
    to it, it has those it inherits from [Object.prototype]. *)
Definition inheritedNames : list string :=
  ["constructor"; "hasOwnProperty"; "isPrototypeOf"; "propertyIsEnumerable";
   "toLocaleString"; "toString"; "valueOf"; "__defineGetter__";
   "__defineSetter__"; "__lookupGetter__"; "__lookupSetter__"; "__proto__"].

Definition isInherited (name : string) : bool :=
  existsb (String.eqb name) inheritedNames.

(** What an inherited name holds: a function, or the prototype itself; it
    is truthy and has no [resources]. *)
Definition inheritedValue : V1APIResourceList :=
  {| rl_apiVersion := None;
     rl_groupVersion := "";
     rl_kind := None;
     rl_resources := [];
     rl_throws := Some "Cannot read properties of undefined (reading 'find')" |}.

(** [this.apiVersionResourceCache[apiVersion]] when it is truthy: the
    property of the cache itself, else the inherited one.  The map of the
    embedding holds the truthy properties of the cache itself. *)
Definition cached (this : KubernetesObjectApi) (apiVersion : string)
  : option V1APIResourceList :=
  match apiVersionResourceCache this !! apiVersion with
  | Some l => Some l
  | None => if isInherited apiVersion then Some inheritedValue else None
  end.

(** The first statement of [resource] after its argument checks: the search
    of the cache.  [Ok None] is the case in which the method goes on to the
    fetch. *)
Definition searchCache (this : KubernetesObjectApi) (apiVersion kind : string)
  : Result (option V1APIResource) :=
  match cached this apiVersion with
  | Some l => findIn kind l
  | None => Ok None
  end.

(** [this.apiVersionResourceCache[apiVersion] = body]: a falsy body leaves
    the cache without a truthy property of that name.  (The method writes
    under no inherited name: with such a name the search of the cache has
    thrown before.) *)
Definition store (apiVersion : string) (body : any) (s : ApiState) : ApiState :=
  if truthyValue body
  then set_cache apiVersion (asV1APIResourceList body) s
  else {| client :=
            with_cache (client s)
              (delete apiVersion (apiVersionResourceCache (client s)));
          requests := requests s |}.

(** The stages of a path build an operation waits for, with the caller's
    spec as the build left it. *)
Definition afterPath {A : Type}
  (p : Outcome string * KubernetesObject * ApiState)
  (k : string -> KubernetesObject -> ApiState -> Outcome A * ApiState)
  : Outcome A * option KubernetesObject * ApiState :=
  match p with
  | (Resolved path, spec, s) => let '(r, s') := k path spec s in (r, Some spec, s')
  | (Rejected e, spec, s) => (Rejected e, Some spec, s)
  | (Pending, spec, s) => (Pending, Some spec, s)
  end.

Section Client.

Variable rt : Runtime.

(** Standard Kubernetes request wrapped in a Promise.  The request is
    handed to the transport; a failure there rejects with the transport's
    error.  Otherwise the body is deserialized, with the given type or with
    the type read off the body.  An exception in the response callback
    (reading a property of an absent body) leaves the promise unsettled. *)
Definition requestPromise (requestOptions : RequestOptions) (type : option string)
  (s : ApiState) : Outcome ResponseResult * ApiState :=
  let s' := record_request requestOptions s in
  match transport rt (requests s) requestOptions with
  | NetFailure error => (Rejected error, s')
  | NetResponse response body =>
      let type :=
        match type with
        | Some t => Ok t
        | None =>
            match getProp body "apiVersion" with
            | Throw e => Throw e
            | Ok a =>
                match getProp body "kind" with
                | Throw e => Throw e
                | Ok k => getSerializationType a k
                end
            end
        end in
      match type with
      | Throw _ => (Pending, s')
      | Ok type =>
          let body := deserialize rt body type in
          if is2xx (statusCode response)
          then (Resolved {| rr_body := body; rr_response := response |}, s')
          else (Rejected (HttpError (httpErrorMessage rt) response body
                            (statusCode response)), s')
      end
  end.

(** Get metadata from the API for resources described by [kind] and
    [apiVersion]; [Resolved None] when the kind is not found.  Responses
    are cached; if the cache for [apiVersion] exists but the kind is not
    found the request is attempted again.  The search of the cache stands
    before the [try]: what it throws rejects the promise as it is.  The
    assignment to the cache and the search of the body stand inside it: what
    that search throws is caught and gets the prefix of a failed fetch, with
    the body left in the cache. *)
Definition resource (apiVersion kind : option string) (s : ApiState)
  : Outcome (option V1APIResource) * ApiState :=
  match apiVersion, kind with
  | None, _ =>
      (Rejected (Error "Required parameter apiVersion was null or undefined when calling resource"), s)
  | Some _, None =>
      (Rejected (Error "Required parameter kind was null or undefined when calling resource"), s)
  | Some apiVersion, Some kind =>
      match searchCache (client s) apiVersion kind with
      | Throw e => (Rejected e, s)
      | Ok (Some resource) => (Resolved (Some resource), s)
      | Ok None =>
          let localVarRequestOptions :=
            {| method := "GET";
               qs := ∅;
               headers := generateHeaders (client s) ∅ None;
               uri := apiVersionPath (client s) apiVersion;
               useQuerystring := _useQuerystring (client s);
               json_flag := true;
               body := None |} in
          let caught (e : JsError) :=
            if isError e
            then setMessage ("Failed to fetch resource metadata for "
                             +:+ apiVersion +:+ "/" +:+ kind +:+ ": "
                             +:+ messageOf e) e
            else e in
          match requestPromise localVarRequestOptions (Some "V1APIResourceList") s with
          | (Resolved getApiResponse, s') =>
              let s' := store apiVersion (rr_body getApiResponse) s' in
              match findIn kind (asV1APIResourceList (rr_body getApiResponse)) with
              | Ok resource => (Resolved resource, s')
              | Throw e => (Rejected (caught e), s')
              end
          | (Rejected e, s') => (Rejected (caught e), s')
          | (Pending, s') => (Pending, s')
          end
      end
  end.

Definition needsName (action : KubernetesApiAction) : bool :=
  match action with
  | ActionCreate | ActionList => false
  | _ => true
  end.

Definition isList (action : KubernetesApiAction) : bool :=
  match action with
  | ActionList => true
  | _ => false
  end.

(** Use spec information to construct resource URI path.  The assignments
    to [spec.apiVersion], [spec.metadata] and [spec.metadata.namespace]
    are made on the caller's object: the spec returned is that object
    when the method settles. *)
Definition specUriPath (spec : KubernetesObject) (action : KubernetesApiAction)
  (s : ApiState) : Outcome string * KubernetesObject * ApiState :=
  if negb (JS.truthy (obj_kind spec))
  then (Rejected (Error "Required spec property kind is not set"), spec, s)
  else
    let spec :=
      if negb (JS.truthy (obj_apiVersion spec)) then with_apiVersion spec "v1"
      else spec in
    let spec :=
      match obj_metadata spec with
      | None => with_metadata spec emptyMeta
      | Some _ => spec
      end in
    let apiVersion := default "" (obj_apiVersion spec) in
    let kind := default "" (obj_kind spec) in
    match resource (obj_apiVersion spec) (obj_kind spec) s with
    | (Rejected e, s) => (Rejected e, spec, s)
    | (Pending, s) => (Pending, spec, s)
    | (Resolved None, s) =>
        (Rejected (Error ("Unrecognized API version and kind: "
                          +:+ apiVersion +:+ " " +:+ kind)), spec, s)
    | (Resolved (Some resource), s) =>
        let metadata := default emptyMeta (obj_metadata spec) in
        let fill :=
          (res_namespaced resource
           && negb (JS.truthy (meta_namespace metadata))
           && negb (isList action))%bool in
        let metadata :=
          if fill then with_namespace metadata (defaultNamespace (client s))
          else metadata in
        let spec := if fill then with_metadata spec metadata else spec in
        let parts := [apiVersionPath (client s) apiVersion] in
        let parts :=
          if (res_namespaced resource && JS.truthy (meta_namespace metadata))%bool
          then parts ++ ["namespaces";
                         JS.encodeURIComponent (default "" (meta_namespace metadata))]
          else parts in
        let parts := parts ++ [res_name resource] in
        if needsName action
        then
          if negb (JS.truthy (meta_name metadata))
          then (Rejected (Error "Required spec property name is not set"), spec, s)
          else
            let parts :=
              parts ++ [JS.encodeURIComponent (default "" (meta_name metadata))] in
            (Resolved (JS.toLowerCase (JS.join "/" parts)), spec, s)
        else (Resolved (JS.toLowerCase (JS.join "/" parts)), spec, s)
    end.

(** [ObjectSerializer.serialize(v, type)] of an optional argument. *)
Definition serialized (v : option json) (type : string) : option any :=
  (fun x => serialize rt (Some x) type) <$> v.

Definition headersOf (options : option CallOptions) : gmap string string :=
  opt_headers (default {| opt_headers := ∅ |} options).

(** Create any Kubernetes resource. *)
Definition create (spec : option KubernetesObject)
  (pretty dryRun fieldManager : option string) (options : option CallOptions)
  (s : ApiState) : Outcome ResponseResult * option KubernetesObject * ApiState :=
  match spec with
  | None =>
      (Rejected (Error "Required parameter spec was null or undefined when calling create."),
       None, s)
  | Some spec =>
      afterPath (specUriPath spec ActionCreate s) (fun localVarPath spec s =>
        let localVarQueryParameters : gmap string any := ∅ in
        let localVarHeaderParams := generateHeaders (client s) (headersOf options) None in
        let localVarQueryParameters :=
          setIfDefined "pretty" (serialized (JStr <$> pretty) "string")
            localVarQueryParameters in
        let localVarQueryParameters :=
          setIfDefined "dryRun" (serialized (JStr <$> dryRun) "string")
            localVarQueryParameters in
        let localVarQueryParameters :=
          setIfDefined "fieldManager" (serialized (JStr <$> fieldManager) "string")
            localVarQueryParameters in
        let localVarRequestOptions :=
          {| method := "POST";
             qs := localVarQueryParameters;
             headers := localVarHeaderParams;
             uri := localVarPath;
             useQuerystring := _useQuerystring (client s);
             json_flag := true;
             body := Some (serialize rt (Some (objectToJson spec)) "KubernetesObject") |} in
        requestPromise localVarRequestOptions None s)
  end.

(** Delete any Kubernetes resource. *)
Definition delete_ (spec : option KubernetesObject)
  (pretty dryRun : option string) (gracePeriodSeconds : option Z)
  (orphanDependents : option bool) (propagationPolicy : option string)
  (deleteOptions : any) (options : option CallOptions)
  (s : ApiState) : Outcome ResponseResult * option KubernetesObject * ApiState :=
  match spec with
  | None =>
      (Rejected (Error "Required parameter spec was null or undefined when calling delete."),
       None, s)
  | Some spec =>
      afterPath (specUriPath spec ActionDelete s) (fun localVarPath spec s =>
        let localVarQueryParameters : gmap string any := ∅ in
        let localVarHeaderParams := generateHeaders (client s) (headersOf options) None in
        let localVarQueryParameters :=
          setIfDefined "pretty" (serialized (JStr <$> pretty) "string")
            localVarQueryParameters in
        let localVarQueryParameters :=
          setIfDefined "dryRun" (serialized (JStr <$> dryRun) "string")
            localVarQueryParameters in
        let localVarQueryParameters :=
          setIfDefined "gracePeriodSeconds"
            (serialized (JNum <$> gracePeriodSeconds) "number")
            localVarQueryParameters in
        let localVarQueryParameters :=
          setIfDefined "orphanDependents"
            (serialized (JBool <$> orphanDependents) "boolean")
            localVarQueryParameters in
        let localVarQueryParameters :=
          setIfDefined "propagationPolicy"
            (serialized (JStr <$> propagationPolicy) "string")
            localVarQueryParameters in
        let localVarRequestOptions :=
          {| method := "DELETE";
             qs := localVarQueryParameters;
             headers := localVarHeaderParams;
             uri := localVarPath;
             useQuerystring := _useQuerystring (client s);
             json_flag := true;
             body := Some (serialize rt deleteOptions "V1DeleteOptions") |} in
        requestPromise localVarRequestOptions (Some "V1Status") s)
  end.

(** Patch any Kubernetes resource. *)
Definition patch (spec : option KubernetesObject)
  (pretty dryRun fieldManager : option string) (force : option bool)
  (options : option CallOptions)
  (s : ApiState) : Outcome ResponseResult * option KubernetesObject * ApiState :=
  match spec with
  | None =>
      (Rejected (Error "Required parameter spec was null or undefined when calling patch."),
       None, s)
  | Some spec =>
      afterPath (specUriPath spec ActionPatch s) (fun localVarPath spec s =>
        let localVarQueryParameters : gmap string any := ∅ in
        let localVarHeaderParams :=
          generateHeaders (client s) (headersOf options) (Some "PATCH") in
        let localVarQueryParameters :=
          setIfDefined "pretty" (serialized (JStr <$> pretty) "string")
            localVarQueryParameters in
        let localVarQueryParameters :=
          setIfDefined "dryRun" (serialized (JStr <$> dryRun) "string")
            localVarQueryParameters in
        let localVarQueryParameters :=
          setIfDefined "fieldManager" (serialized (JStr <$> fieldManager) "string")
            localVarQueryParameters in
        let localVarQueryParameters :=
          setIfDefined "force" (serialized (JBool <$> force) "boolean")
            localVarQueryParameters in
        let localVarRequestOptions :=
          {| method := "PATCH";
             qs := localVarQueryParameters;
             headers := localVarHeaderParams;
             uri := localVarPath;
             useQuerystring := _useQuerystring (client s);
             json_flag := true;
             body := Some (serialize rt (Some (objectToJson spec)) "object") |} in
        requestPromise localVarRequestOptions None s)
  end.

(** Read any Kubernetes resource. *)
Definition read (spec : option KubernetesObject)
  (pretty : option string) (exact exportt : option bool)
  (options : option CallOptions)
  (s : ApiState) : Outcome ResponseResult * option KubernetesObject * ApiState :=
  match spec with
  | None =>
      (Rejected (Error "Required parameter spec was null or undefined when calling read."),
       None, s)
  | Some spec =>
      match obj_kind spec with
      | None =>
          (Rejected (Error "Required parameter spec.kind was null or undefined when calling read."),
           Some spec, s)
      | Some _ =>
          if negb (JS.truthy (obj_apiVersion spec))
          then
            (Rejected (Error "Required parameter spec.apiVersion was null or undefined when calling read."),
             Some spec, s)
          else
            afterPath (specUriPath spec ActionRead s) (fun localVarPath spec s =>
              let localVarQueryParameters : gmap string any := ∅ in
              let localVarHeaderParams :=
                generateHeaders (client s) (headersOf options) None in
              let localVarQueryParameters :=
                setIfDefined "pretty" (serialized (JStr <$> pretty) "string")
                  localVarQueryParameters in
              let localVarQueryParameters :=
                setIfDefined "exact" (serialized (JBool <$> exact) "boolean")
                  localVarQueryParameters in
              let localVarQueryParameters :=
                setIfDefined "export" (serialized (JBool <$> exportt) "boolean")
                  localVarQueryParameters in
              let localVarRequestOptions :=
                {| method := "GET";
                   qs := localVarQueryParameters;
                   headers := localVarHeaderParams;
                   uri := localVarPath;
                   useQuerystring := _useQuerystring (client s);
                   json_flag := true;
                   body := None |} in
              requestPromise localVarRequestOptions None s)
      end
  end.

(** The object literal [{ apiVersion, kind, metadata: { namespace } }]
    that [list] and [watch] hand to [specUriPath]. *)
Definition headerOf (apiVersion kind : string) (namespace : option string)
  : KubernetesObject :=
  {| obj_apiVersion := Some apiVersion;
     obj_kind := Some kind;
     obj_metadata :=
       Some {| meta_name := None; meta_namespace := namespace; meta_rest := [] |};
     obj_rest := [] |}.

(** List any Kubernetes resources. *)
Definition list_ (apiVersion kind : option string) (namespace : option string)
  (pretty : option string) (exact exportt : option bool)
  (fieldSelector labelSelector : option string) (limit : option Z)
  (continueToken : option string) (options : option CallOptions)
  (s : ApiState) : Outcome ResponseResult * ApiState :=
  match apiVersion, kind with
  | None, _ =>
      (Rejected (Error "Required parameter apiVersion was null or undefined when calling list."), s)
  | Some _, None =>
      (Rejected (Error "Required parameter kind was null or undefined when calling list."), s)
  | Some apiVersion, Some kind =>
      let '(r, _, s) :=
        afterPath (specUriPath (headerOf apiVersion kind namespace) ActionList s)
          (fun localVarPath _ s =>
            let localVarQueryParameters : gmap string any := ∅ in
            let localVarHeaderParams :=
              generateHeaders (client s) (headersOf options) None in
            let localVarQueryParameters :=
              setIfDefined "pretty" (serialized (JStr <$> pretty) "string")
                localVarQueryParameters in
            let localVarQueryParameters :=
              setIfDefined "exact" (serialized (JBool <$> exact) "boolean")
                localVarQueryParameters in
            let localVarQueryParameters :=
              setIfDefined "export" (serialized (JBool <$> exportt) "boolean")
                localVarQueryParameters in
            let localVarQueryParameters :=
              setIfDefined "fieldSelector" (serialized (JStr <$> fieldSelector) "string")
                localVarQueryParameters in
            let localVarQueryParameters :=
              setIfDefined "labelSelector" (serialized (JStr <$> labelSelector) "string")
                localVarQueryParameters in
            let localVarQueryParameters :=
              setIfDefined "limit" (serialized (JNum <$> limit) "number")
                localVarQueryParameters in
            let localVarQueryParameters :=
              setIfDefined "continue" (serialized (JStr <$> continueToken) "string")
                localVarQueryParameters in
            let localVarRequestOptions :=
              {| method := "GET";
                 qs := localVarQueryParameters;
                 headers := localVarHeaderParams;
                 uri := localVarPath;
                 useQuerystring := _useQuerystring (client s);
                 json_flag := true;
                 body := None |} in
            requestPromise localVarRequestOptions None s) in
      (r, s)
  end.

(** Replace any Kubernetes resource. *)
Definition replace (spec : option KubernetesObject)
  (pretty dryRun fieldManager : option string) (options : option CallOptions)
  (s : ApiState) : Outcome ResponseResult * option KubernetesObject * ApiState :=
  match spec with
  | None =>
      (Rejected (Error "Required parameter spec was null or undefined when calling replace."),
       None, s)
  | Some spec =>
      afterPath (specUriPath spec ActionReplace s) (fun localVarPath spec s =>
        let localVarQueryParameters : gmap string any := ∅ in
        let localVarHeaderParams := generateHeaders (client s) (headersOf options) None in
        let localVarQueryParameters :=
          setIfDefined "pretty" (serialized (JStr <$> pretty) "string")
            localVarQueryParameters in
        let localVarQueryParameters :=
          setIfDefined "dryRun" (serialized (JStr <$> dryRun) "string")
            localVarQueryParameters in
        let localVarQueryParameters :=
          setIfDefined "fieldManager" (serialized (JStr <$> fieldManager) "string")
            localVarQueryParameters in
        let localVarRequestOptions :=
          {| method := "PUT";
             qs := localVarQueryParameters;
             headers := localVarHeaderParams;
             uri := localVarPath;
             useQuerystring := _useQuerystring (client s);
             json_flag := true;
             body := Some (serialize rt (Some (objectToJson spec)) "KubernetesObject") |} in
        requestPromise localVarRequestOptions None s)
  end.

(** The wrapper [cb] that [watch] puts around the caller's callback: the
    event's object is deserialized with [type], and the call handed on is
    [(phase, obj, watchObj ? { ...watchObj, object: obj } : undefined)]. *)
Definition cb (type : string) (call : WatchCall) : WatchCall :=
  let obj := deserialize rt (wc_apiObj call) type in
  {| wc_phase := wc_phase call;
     wc_apiObj := obj;
     wc_watchObj :=
       (fun w => {| wo_type := wo_type w; wo_object := obj |}) <$> wc_watchObj call |}.

(** Watches the given resources.  The result lists the calls the caller's
    callback receives, in order, for the events the session delivers. *)
Definition watch (apiVersion kind : string) (namespace : option string)
  (options : option WatchOptions) (s : ApiState)
  : Outcome (list WatchCall) * ApiState :=
  match watcher (client s) with
  | None => (Rejected (Error "Watcher not initialized"), s)
  | Some w =>
      let options :=
        default {| allowWatchBookmarks := None; resourceVersion := None |} options in
      let '(r, _, s) :=
        afterPath (specUriPath (headerOf apiVersion kind namespace) ActionList s)
          (fun localVarPath _ s =>
            match urlPathname rt localVarPath with
            | Throw e => (Rejected e, s)
            | Ok resourcePath =>
                match getSerializationType (Some (JStr apiVersion)) (Some (JStr kind)) with
                | Throw e => (Rejected e, s)
                | Ok type =>
                    match watch_session w resourcePath options with
                    | Throw e => (Rejected e, s)
                    | Ok events => (Resolved (map (cb type) events), s)
                    end
                end
            end) in
      (r, s)
  end.

End Client.

Arguments requestPromise : simpl never.
Arguments resource : simpl never.
Arguments specUriPath : simpl never.
Arguments JS.join : simpl never.
Arguments getSerializationType : simpl never.

(** ** The operations as one family *)

(** An invocation of one of the six operations with its arguments. *)
Inductive Call : Type :=
| CallCreate (spec : option KubernetesObject)
    (pretty dryRun fieldManager : option string) (options : option CallOptions)
| CallDelete (spec : option KubernetesObject)
    (pretty dryRun : option string) (gracePeriodSeconds : option Z)
    (orphanDependents : option bool) (propagationPolicy : option string)
    (deleteOptions : any) (options : option CallOptions)
| CallPatch (spec : option KubernetesObject)
    (pretty dryRun fieldManager : option string) (force : option bool)
    (options : option CallOptions)
| CallRead (spec : option KubernetesObject)
    (pretty : option string) (exact exportt : option bool)
    (options : option CallOptions)
| CallList (apiVersion kind : option string) (namespace : option string)
    (pretty : option string) (exact exportt : option bool)
    (fieldSelector labelSelector : option string) (limit : option Z)
    (continueToken : option string) (options : option CallOptions)
| CallReplace (spec : option KubernetesObject)
    (pretty dryRun fieldManager : option string) (options : option CallOptions).

(** Running an invocation: the outcome, the caller's spec object when the
    method was given one, and the state. *)
Definition perform (rt : Runtime) (c : Call) (s : ApiState)
  : Outcome ResponseResult * option KubernetesObject * ApiState :=
  match c with
  | CallCreate spec pretty dryRun fieldManager options =>
      create rt spec pretty dryRun fieldManager options s
  | CallDelete spec pretty dryRun grace orphan policy deleteOptions options =>
      delete_ rt spec pretty dryRun grace orphan policy deleteOptions options s
  | CallPatch spec pretty dryRun fieldManager force options =>
      patch rt spec pretty dryRun fieldManager force options s
  | CallRead spec pretty exact exportt options =>
      read rt spec pretty exact exportt options s
  | CallList apiVersion kind namespace pretty exact exportt fieldSelector
      labelSelector limit continueToken options =>
      let '(r, s') :=
        list_ rt apiVersion kind namespace pretty exact exportt fieldSelector
          labelSelector limit continueToken options s in
      (r, None, s')
  | CallReplace spec pretty dryRun fieldManager options =>
      replace rt spec pretty dryRun fieldManager options s
  end.

Definition callAction (c : Call) : KubernetesApiAction :=
  match c with
  | CallCreate _ _ _ _ _ => ActionCreate
  | CallDelete _ _ _ _ _ _ _ _ => ActionDelete
  | CallPatch _ _ _ _ _ _ => ActionPatch
  | CallRead _ _ _ _ _ => ActionRead
  | CallList _ _ _ _ _ _ _ _ _ _ _ => ActionList
  | CallReplace _ _ _ _ _ => ActionReplace
  end.

(** The object an invocation hands to [specUriPath], when its own argument
    checks let it get that far. *)
Definition pathInput (c : Call) : option KubernetesObject :=
  match c with
  | CallCreate spec _ _ _ _ | CallDelete spec _ _ _ _ _ _ _
  | CallPatch spec _ _ _ _ _ | CallReplace spec _ _ _ _ => spec
  | CallRead spec _ _ _ _ =>
      spec ≫= fun o =>
        match obj_kind o with
        | None => None
        | Some _ => if JS.truthy (obj_apiVersion o) then Some o else None
        end
  | CallList apiVersion kind namespace _ _ _ _ _ _ _ _ =>
      apiVersion ≫= fun a => kind ≫= fun k => Some (headerOf a k namespace)
  end.

(** Whether the object handed to [specUriPath] is the caller's own. *)
Definition hasCallerSpec (c : Call) : bool :=
  match c with
  | CallList _ _ _ _ _ _ _ _ _ _ _ => false
  | _ => true
  end.

Definition callOptions (c : Call) : option CallOptions :=
  match c with
  | CallCreate _ _ _ _ options | CallDelete _ _ _ _ _ _ _ options
  | CallPatch _ _ _ _ _ options | CallRead _ _ _ _ options
  | CallList _ _ _ _ _ _ _ _ _ _ options | CallReplace _ _ _ _ options => options
  end.

Definition callMethod (c : Call) : string :=
  match c with
  | CallCreate _ _ _ _ _ => "POST"
  | CallDelete _ _ _ _ _ _ _ _ => "DELETE"
  | CallPatch _ _ _ _ _ _ => "PATCH"
  | CallRead _ _ _ _ _ | CallList _ _ _ _ _ _ _ _ _ _ _ => "GET"
  | CallReplace _ _ _ _ _ => "PUT"
  end.

(** The [action] argument the invocation gives [generateHeaders]. *)
Definition headerAction (c : Call) : option string :=
  match c with
  | CallPatch _ _ _ _ _ _ => Some "PATCH"
  | _ => None
  end.

(** The [type] argument the invocation gives [requestPromise]. *)
Definition declaredType (c : Call) : option string :=
  match c with
  | CallDelete _ _ _ _ _ _ _ _ => Some "V1Status"
  | _ => None
  end.

Definition callQuery (rt : Runtime) (c : Call) : gmap string any :=
  match c with
  | CallCreate _ pretty dryRun fieldManager _
  | CallReplace _ pretty dryRun fieldManager _ =>
      setIfDefined "fieldManager" (serialized rt (JStr <$> fieldManager) "string")
        (setIfDefined "dryRun" (serialized rt (JStr <$> dryRun) "string")
           (setIfDefined "pretty" (serialized rt (JStr <$> pretty) "string") ∅))
  | CallDelete _ pretty dryRun grace orphan policy _ _ =>
      setIfDefined "propagationPolicy" (serialized rt (JStr <$> policy) "string")
        (setIfDefined "orphanDependents" (serialized rt (JBool <$> orphan) "boolean")
           (setIfDefined "gracePeriodSeconds" (serialized rt (JNum <$> grace) "number")
              (setIfDefined "dryRun" (serialized rt (JStr <$> dryRun) "string")
                 (setIfDefined "pretty" (serialized rt (JStr <$> pretty) "string") ∅))))
  | CallPatch _ pretty dryRun fieldManager force _ =>
      setIfDefined "force" (serialized rt (JBool <$> force) "boolean")
        (setIfDefined "fieldManager" (serialized rt (JStr <$> fieldManager) "string")
           (setIfDefined "dryRun" (serialized rt (JStr <$> dryRun) "string")
              (setIfDefined "pretty" (serialized rt (JStr <$> pretty) "string") ∅)))
  | CallRead _ pretty exact exportt _ =>
      setIfDefined "export" (serialized rt (JBool <$> exportt) "boolean")
        (setIfDefined "exact" (serialized rt (JBool <$> exact) "boolean")
           (setIfDefined "pretty" (serialized rt (JStr <$> pretty) "string") ∅))
  | CallList _ _ _ pretty exact exportt fieldSelector labelSelector limit
      continueToken _ =>
      setIfDefined "continue" (serialized rt (JStr <$> continueToken) "string")
        (setIfDefined "limit" (serialized rt (JNum <$> limit) "number")
           (setIfDefined "labelSelector" (serialized rt (JStr <$> labelSelector) "string")
              (setIfDefined "fieldSelector" (serialized rt (JStr <$> fieldSelector) "string")
                 (setIfDefined "export" (serialized rt (JBool <$> exportt) "boolean")
                    (setIfDefined "exact" (serialized rt (JBool <$> exact) "boolean")
                       (setIfDefined "pretty" (serialized rt (JStr <$> pretty) "string")
                          ∅))))))
  end.

Definition callBody (rt : Runtime) (c : Call) (spec : KubernetesObject) : option any :=
  match c with
  | CallCreate _ _ _ _ _ | CallReplace _ _ _ _ _ =>
      Some (serialize rt (Some (objectToJson spec)) "KubernetesObject")
  | CallPatch _ _ _ _ _ _ => Some (serialize rt (Some (objectToJson spec)) "object")
  | CallDelete _ _ _ _ _ _ deleteOptions _ =>
      Some (serialize rt deleteOptions "V1DeleteOptions")
  | CallRead _ _ _ _ _ | CallList _ _ _ _ _ _ _ _ _ _ _ => None
  end.

(** The request an invocation hands to [requestPromise] once the path is
    built: [localVarRequestOptions]. *)
Definition callRequest (rt : Runtime) (c : Call) (this : KubernetesObjectApi)
  (path : string) (spec : KubernetesObject) : RequestOptions :=
  {| method := callMethod c;
     qs := callQuery rt c;
     headers := generateHeaders this (headersOf (callOptions c)) (headerAction c);
     uri := path;
     useQuerystring := _useQuerystring this;
     json_flag := true;
     body := callBody rt c spec |}.

(** The request [resource] issues to fetch the resource list of [apiVersion]. *)
Definition discoveryRequest (this : KubernetesObjectApi) (apiVersion : string)
  : RequestOptions :=
  {| method := "GET";
     qs := ∅;
     headers := generateHeaders this ∅ None;
     uri := apiVersionPath this apiVersion;
     useQuerystring := _useQuerystring this;
     json_flag := true;
     body := None |}.

(** The serialization type read off a response body: the [type] that
    [requestPromise] computes when it is given none. *)
Definition bodyType (body : any) : Result string :=
  match getProp body "apiVersion" with
  | Throw e => Throw e
  | Ok a =>
      match getProp body "kind" with
      | Throw e => Throw e
      | Ok k => getSerializationType a k
      end
  end.

(** What [resource] does to the error of a failed fetch. *)
Definition fetchError (apiVersion kind : string) (e : JsError) : JsError :=
  if isError e
  then setMessage ("Failed to fetch resource metadata for "
                   +:+ apiVersion +:+ "/" +:+ kind +:+ ": " +:+ messageOf e) e
  else e.

(** ** The path builder as the specification words it *)

(** Rule 1: an absent apiVersion defaults to ["v1"]. *)
Definition effectiveApiVersion (spec : KubernetesObject) : string :=
  match obj_apiVersion spec with
  | Some v => if JS.truthy (Some v) then v else "v1"
  | None => "v1"
  end.

(** Rule 2: the root segment. *)
Definition rootSegment (apiVersion : string) : string :=
  if JS.includes "/" apiVersion then "apis" else "api".

Definition specName (spec : KubernetesObject) : option string :=
  obj_metadata spec ≫= meta_name.

Definition specNamespace (spec : KubernetesObject) : option string :=
  obj_metadata spec ≫= meta_namespace.

(** Rule 3: the namespace of a namespaced kind defaults on non-list actions. *)
Definition effectiveNamespace (defaultNs : string) (namespaced : bool)
  (action : KubernetesApiAction) (namespace : option string) : option string :=
  if (namespaced && negb (isList action) && negb (JS.truthy namespace))%bool
  then Some defaultNs
  else namespace.

(** The single-object actions. *)
Definition isSingleObject (action : KubernetesApiAction) : bool :=
  match action with
  | ActionRead | ActionReplace | ActionPatch | ActionDelete => true
  | ActionCreate | ActionList => false
  end.

(** Rule 4 and the escaping of rule 5: the segments, in order. *)
Definition pathSegments (base apiVersion : string) (namespaced : bool)
  (namespace : option string) (pluralName : string) (name : option string)
  (action : KubernetesApiAction) : list string :=
  [base; rootSegment apiVersion; apiVersion]
  ++ (if (namespaced && JS.truthy namespace)%bool
      then ["namespaces"; JS.encodeURIComponent (default "" namespace)]
      else [])
  ++ [pluralName]
  ++ (if isSingleObject action then [JS.encodeURIComponent (default "" name)]
      else []).

(** The caller's spec after a path build that resolved [r]. *)
Definition defaultedSpec (defaultNs : string) (r : V1APIResource)
  (action : KubernetesApiAction) (spec : KubernetesObject) : KubernetesObject :=
  {| obj_apiVersion := Some (effectiveApiVersion spec);
     obj_kind := obj_kind spec;
     obj_metadata :=
       Some {| meta_name := specName spec;
               meta_namespace :=
                 effectiveNamespace defaultNs (res_namespaced r) action
                   (specNamespace spec);
               meta_rest := default [] (meta_rest <$> obj_metadata spec) |};
     obj_rest := obj_rest spec |}.

(** The two errors of the path builder that the specification calls
    [InvalidSpec], and the one it calls [UnknownResource]. *)
Definition kindNotSet : JsError := Error "Required spec property kind is not set".
Definition nameNotSet : JsError := Error "Required spec property name is not set".

Definition InvalidSpec (e : JsError) : Prop := e = kindNotSet \/ e = nameNotSet.

Definition UnknownResource (apiVersion kind : string) (e : JsError) : Prop :=
  e = Error ("Unrecognized API version and kind: " +:+ apiVersion +:+ " " +:+ kind).

(** No ASCII capital is left in a string. *)
Fixpoint lowerCased (s : string) : bool :=
  match s with
  | EmptyString => true
  | String c r => (negb (JS.isUpper c) && lowerCased r)%bool
  end.

(** The caller's spec after the first two assignments of [specUriPath]. *)
Definition prepared (spec : KubernetesObject) : KubernetesObject :=
  {| obj_apiVersion := Some (effectiveApiVersion spec);
     obj_kind := obj_kind spec;
     obj_metadata := Some (default emptyMeta (obj_metadata spec));
     obj_rest := obj_rest spec |}.

(** The serialization type of a watched resource:
    the version with its first letter in upper case, then the kind. *)
Definition watchType (apiVersion kind : string) : string :=
  let v := version (groupVersion apiVersion) in
  JS.toUpperCase (JS.charAt0 v) +:+ JS.slice1 v +:+ kind.

(** The type an invocation's response is deserialized with. *)
Definition decodeType (c : Call) (body : any) : Result string :=
  match declaredType c with
  | Some t => Ok t
  | None => bodyType body
  end.

(** How [requestPromise] settles once the body is deserialized. *)
Definition settle (rt : Runtime) (response : IncomingMessage) (decoded : any)
  : Outcome ResponseResult :=
  if is2xx (statusCode response)
  then Resolved {| rr_body := decoded; rr_response := response |}
  else Rejected (HttpError (httpErrorMessage rt) response decoded (statusCode response)).

(** An invocation from the point where its path build has settled. *)
Definition performFrom (rt : Runtime) (c : Call)
  (p : Outcome string * KubernetesObject * ApiState)
  : Outcome ResponseResult * option KubernetesObject * ApiState :=
  let '(r, spec, s) :=
    afterPath p (fun path spec s =>
      requestPromise rt (callRequest rt c (client s) path spec) (declaredType c) s) in
  (r, if hasCallerSpec c then spec else None, s).

(** ** Escaping, lower-casing and the search of a list, as the
    specification words them *)

(** [c] is one of the characters of [alphabet]. *)
Definition inString (c : ascii) (alphabet : string) : bool :=
  existsb (Ascii.eqb c) (list_ascii_of_string alphabet).

(** The characters percent-encoding keeps. *)
Definition unreservedCharacters : string :=
  "ABCDEFGHIJKLMNOPQRSTUVWXYZabcdefghijklmnopqrstuvwxyz0123456789-_.!~*'()".

Definition capitalLetters : string := "ABCDEFGHIJKLMNOPQRSTUVWXYZ".

Definition smallLetters : string := "abcdefghijklmnopqrstuvwxyz".

(** [d] is the hexadecimal digit of [n], in upper case. *)
Definition HexDigit (n : nat) (d : ascii) : Prop :=
  nth_error (list_ascii_of_string "0123456789ABCDEF") n = Some d.

(** [out] is [raw] percent-encoded: an unreserved character stands for
    itself, and any other byte is written as ["%"] and the two hexadecimal
    digits of its value. *)
Inductive PercentEncoded : string -> string -> Prop :=
| pe_end : PercentEncoded "" ""
| pe_kept (c : ascii) (raw out : string) :
    inString c unreservedCharacters = true ->
    PercentEncoded raw out ->
    PercentEncoded (String c raw) (String c out)
| pe_escaped (c hi lo : ascii) (raw out : string) :
    inString c unreservedCharacters = false ->
    HexDigit (Nat.div (nat_of_ascii c) 16) hi ->
    HexDigit (Nat.modulo (nat_of_ascii c) 16) lo ->
    PercentEncoded raw out ->
    PercentEncoded (String c raw) (String "%" (String hi (String lo out))).

(** [out] is [raw] in lower case: a capital letter is replaced by the small
    letter at its place in the alphabet, and any other character is kept. *)
Inductive LowerCaseOf : string -> string -> Prop :=
| lc_end : LowerCaseOf "" ""
| lc_capital (i : nat) (c d : ascii) (raw out : string) :
    nth_error (list_ascii_of_string capitalLetters) i = Some c ->
    nth_error (list_ascii_of_string smallLetters) i = Some d ->
    LowerCaseOf raw out ->
    LowerCaseOf (String c raw) (String d out)
| lc_other (c : ascii) (raw out : string) :
    inString c capitalLetters = false ->
    LowerCaseOf raw out ->
    LowerCaseOf (String c raw) (String c out).

(** [r] is the first of [entries] whose kind is [kind]. *)
Definition FirstOfKind (kind : string) (entries : list V1APIResource)
  (r : V1APIResource) : Prop :=
  exists before after,
    entries = before ++ r :: after
    /\ res_kind r = kind
    /\ Forall (fun x => res_kind x <> kind) before.

(** None of [entries] has the kind [kind]. *)
Definition NoneOfKind (kind : string) (entries : list V1APIResource) : Prop :=
  Forall (fun x => res_kind x <> kind) entries.

(** ** Construction of a client *)

(** A context of a connection configuration: its name and its namespace. *)
Record Context := {
  ctx_name : string;
  ctx_namespace : option string
}.

(** Modelled from the spec: the connection configuration of [./config]
    (class [KubeConfig]), which is not part of the sources at hand.  The
    client reads its current context and looks a context up by name. *)
Record KubeConfig := {
  currentContext : option string;
  getContextObject : string -> option Context
}.

(** The field initialisers of the class: the default namespace is
    ['default'], the resource cache is empty, there is no watcher. *)
Definition newKubernetesObjectApi (base : string) (defaults : gmap string string)
  (useQs : bool) : KubernetesObjectApi :=
  {| basePath := base;
     _defaultHeaders := defaults;
     _useQuerystring := useQs;
     defaultNamespace := "default";
     apiVersionResourceCache := ∅;
     watcher := None |}.

Definition with_defaultNamespace (c : KubernetesObjectApi) (ns : string)
  : KubernetesObjectApi :=
  {| basePath := basePath c;
     _defaultHeaders := _defaultHeaders c;
     _useQuerystring := _useQuerystring c;
     defaultNamespace := ns;
     apiVersionResourceCache := apiVersionResourceCache c;
     watcher := watcher c |}.

Definition with_watcher (c : KubernetesObjectApi) (w : Watch) : KubernetesObjectApi :=
  {| basePath := basePath c;
     _defaultHeaders := _defaultHeaders c;
     _useQuerystring := _useQuerystring c;
     defaultNamespace := defaultNamespace c;
     apiVersionResourceCache := apiVersionResourceCache c;
     watcher := Some w |}.

(** Set default namespace from current context, if available.  Returns the
    default namespace next to the client as the method leaves it. *)
Definition setDefaultNamespace (this : KubernetesObjectApi) (kc : KubeConfig)
  : string * KubernetesObjectApi :=
  let this :=
    if JS.truthy (currentContext kc)
    then
      match getContextObject kc (default "" (currentContext kc)) with
      | Some currentContext =>
          if JS.truthy (ctx_namespace currentContext)
          then with_defaultNamespace this (default "" (ctx_namespace currentContext))
          else this
      | None => this
      end
    else this in
  (defaultNamespace this, this).

(** Create a client from the configuration.  [construct] is
    [kc.makeApiClient(KubernetesObjectApi)], a method of the configuration
    that is not part of the sources at hand: the instance it constructs is
    taken as given.  [newWatch] is [new Watch(kc)].  The method sets the
    default namespace of that instance from the current context and gives it
    a watcher. *)
Definition makeApiClient (newWatch : KubeConfig -> Watch)
  (construct : KubeConfig -> KubernetesObjectApi) (kc : KubeConfig)
  : KubernetesObjectApi :=
  let client := construct kc in
  let client := snd (setDefaultNamespace client kc) in
  with_watcher client (newWatch kc).

(** The text of a string before its first [c], and the text after it. *)
Fixpoint beforeFirst (c : ascii) (s : string) : string :=
  match s with
  | EmptyString => EmptyString
  | String d r => if Ascii.eqb d c then EmptyString else String d (beforeFirst c r)
  end.

Fixpoint afterFirst (c : ascii) (s : string) : string :=
  match s with
  | EmptyString => EmptyString
  | String d r => if Ascii.eqb d c then r else afterFirst c r
  end.

(** The requests an invocation adds to those handed to the transport. *)
Definition newRequests (rt : Runtime) (c : Call) (s : ApiState) : list RequestOptions :=
  drop (length (requests s)) (requests (snd (perform rt c s))).

(** ** A small cluster to run the client against *)

Module Demo.

(** The attribute names of the shapes a small serializer knows; a shape
    keeps the attributes it declares and drops the others, and a name it
    does not know leaves the value as it is. *)
Definition shapes : list (string * list string) :=
  [("V1Status",
    ["apiVersion"; "kind"; "metadata"; "status"; "message"; "reason"; "code";
     "details"]);
   ("V1Pod", ["apiVersion"; "kind"; "metadata"; "spec"; "status"]);
   ("V1APIResourceList", ["apiVersion"; "groupVersion"; "kind"; "resources"])].

Fixpoint attributesOf (type : string) (l : list (string * list string))
  : option (list string) :=
  match l with
  | [] => None
  | (n, attrs) :: r => if String.eqb n type then Some attrs else attributesOf type r
  end.

Definition pass (v : any) (type : string) : any := v.

Definition decode (v : any) (type : string) : any :=
  match v, attributesOf type shapes with
  | Some (JObj fields), Some attrs =>
      Some (JObj (List.filter (fun kv => existsb (String.eqb (fst kv)) attrs) fields))
  | _, _ => v
  end.

Definition textOf (v : option json) : string :=
  match v with
  | Some (JStr s) => s
  | _ => ""
  end.

(** The entry of a discovery body as the resolver returns it. *)
Definition resourceOf (j : json) : V1APIResource :=
  match j with
  | JObj fields => asV1APIResource (textOf (assoc "kind" fields)) fields
  | _ => asV1APIResource "" []
  end.

Definition entry (kind name : string) (namespaced : bool) : json :=
  JObj [("kind", JStr kind); ("name", JStr name); ("namespaced", JBool namespaced);
        ("singularName", JStr "")].

Definition discovery (gv : string) (entries : list json) : json :=
  JObj [("apiVersion", JStr "v1"); ("kind", JStr "APIResourceList");
        ("groupVersion", JStr gv); ("resources", JArr entries)].

Definition coreV1 : json :=
  discovery "v1" [entry "Pod" "pods" true; entry "Namespace" "namespaces" false].

Definition appsV1 : json :=
  discovery "apps/v1" [entry "Deployment" "deployments" true].

Definition base : string := "https://Kube.example.com:6443".

Definition pod : json :=
  JObj [("apiVersion", JStr "v1"); ("kind", JStr "Pod");
        ("metadata", JObj [("name", JStr "web"); ("namespace", JStr "default")]);
        ("spec", JObj [("nodeName", JStr "node-1")])].

Definition conflict : json :=
  JObj [("apiVersion", JStr "v1"); ("kind", JStr "Status");
        ("status", JStr "Failure"); ("reason", JStr "AlreadyExists");
        ("code", JNum 409)].

Definition expired : json :=
  JObj [("apiVersion", JStr "v1"); ("kind", JStr "Status");
        ("status", JStr "Failure"); ("reason", JStr "Expired");
        ("code", JNum 410)].

Definition reply (code : Z) (body : any) : NetReply :=
  NetResponse {| statusCode := Some code; statusMessage := None |} body.

(** A server: discovery for [v1] and [apps/v1], the deleted pod as the
    answer to a DELETE, a conflict to a POST, the pod to anything else. *)
Definition server (history : list RequestOptions) (r : RequestOptions) : NetReply :=
  if String.eqb (uri r) (base +:+ "/api/v1") then reply 200 (Some coreV1)
  else if String.eqb (uri r) (base +:+ "/apis/apps/v1") then reply 200 (Some appsV1)
  else if String.eqb (method r) "DELETE" then reply 200 (Some pod)
  else if String.eqb (method r) "POST" then reply 409 (Some conflict)
  else reply 200 (Some pod).

(** No server: every request fails at the connection. *)
Definition unreachable (history : list RequestOptions) (r : RequestOptions) : NetReply :=
  NetFailure (Error "connect ECONNREFUSED").

(** The path of an absolute [https] URL: what follows the authority. *)
Fixpoint fromSlash (s : string) : string :=
  match s with
  | EmptyString => "/"
  | String c r => if Ascii.eqb c "/" then s else fromSlash r
  end.

Definition pathname (s : string) : Result string :=
  if String.prefix "https://" s
  then Ok (fromSlash (String.substring 8 (String.length s - 8) s))
  else Throw (TypeError "Invalid URL").

Definition runtime : Runtime :=
  {| serialize := pass;
     deserialize := decode;
     transport := server;
     urlPathname := pathname;
     httpErrorMessage := "HTTP request failed" |}.

Definition offline : Runtime :=
  {| serialize := pass;
     deserialize := decode;
     transport := unreachable;
     urlPathname := pathname;
     httpErrorMessage := "HTTP request failed" |}.

(** A server that answers discovery and then drops the connection. *)
Definition dropping (history : list RequestOptions) (r : RequestOptions) : NetReply :=
  if String.eqb (uri r) (base +:+ "/api/v1") then reply 200 (Some coreV1)
  else NetFailure (Error "socket hang up").

Definition flaky : Runtime :=
  {| serialize := pass;
     deserialize := decode;
     transport := dropping;
     urlPathname := pathname;
     httpErrorMessage := "HTTP request failed" |}.

(** A watch session on pods: a pod is added, then the stream ends with an
    error event carrying a [Status]. *)
Definition stream : list WatchCall :=
  [{| wc_phase := ADDED; wc_apiObj := Some pod;
      wc_watchObj := Some {| wo_type := ADDED; wo_object := Some pod |} |};
   {| wc_phase := ERROR; wc_apiObj := Some expired;
      wc_watchObj := Some {| wo_type := ERROR; wo_object := Some expired |} |}].

Definition session : Watch :=
  {| watch_session := fun _ _ => Ok stream |}.

Definition api : KubernetesObjectApi :=
  {| basePath := base;
     _defaultHeaders := ∅;
     _useQuerystring := false;
     defaultNamespace := "default";
     apiVersionResourceCache := ∅;
     watcher := Some session |}.

(** A fresh client: nothing cached, nothing requested. *)
Definition start : ApiState := {| client := api; requests := [] |}.

Definition object (apiVersion kind : option string) (namespace name : option string)
  : KubernetesObject :=
  {| obj_apiVersion := apiVersion;
     obj_kind := kind;
     obj_metadata :=
       Some {| meta_name := name; meta_namespace := namespace; meta_rest := [] |};
     obj_rest := [] |}.

Definition deployment : KubernetesObject :=
  object (Some "apps/v1") (Some "Deployment") (Some "Default") (Some "Foo").

Definition webPod : KubernetesObject :=
  object None (Some "Pod") None (Some "web").

(** The same pod as a path build leaves it. *)
Definition webPodDefaulted : KubernetesObject :=
  object (Some "v1") (Some "Pod") (Some "default") (Some "web").

(** A pod without a name. *)
Definition nameless : KubernetesObject :=
  object (Some "v1") (Some "Pod") None None.

Definition podResource : V1APIResource := resourceOf (entry "Pod" "pods" true).

Definition deploymentResource : V1APIResource :=
  resourceOf (entry "Deployment" "deployments" true).

(** The client once it has fetched the resources of [v1]. *)
Definition warm : ApiState := snd (resource runtime (Some "v1") (Some "Pod") start).

Definition podsPath : string :=
  "https://kube.example.com:6443/api/v1/namespaces/default/pods".

Definition webPodPath : string :=
  "https://kube.example.com:6443/api/v1/namespaces/default/pods/web".

Definition mergePatch : option CallOptions :=
  Some {| opt_headers := {["content-type" := KubernetesPatchStrategies.MergePatch]} |}.

End Demo.


(** ** A second cluster: configurations and a stale cache *)

Module Lab.

Definition contexts (name : string) : option Context :=
  if String.eqb name "dev"
  then Some {| ctx_name := "dev"; ctx_namespace := Some "team-a" |}
  else if String.eqb name "bare"
  then Some {| ctx_name := "bare"; ctx_namespace := None |}
  else None.

Definition config (current : option string) : KubeConfig :=
  {| currentContext := current; getContextObject := contexts |}.

Definition newWatch (kc : KubeConfig) : Watch := Demo.session.

(** An instance as constructed for the lab: the fields as the class
    initialises them, and a default header of the base class. *)
Definition construct (kc : KubeConfig) : KubernetesObjectApi :=
  newKubernetesObjectApi Demo.base {["user-agent" := "lab"]} false.

(** The client made for the context [dev]. *)
Definition devClient : KubernetesObjectApi :=
  makeApiClient newWatch construct (config (Some "dev")).

Definition devStart : ApiState := {| client := devClient; requests := [] |}.

(** A client constructed without [makeApiClient]: it has no watcher. *)
Definition plain : ApiState :=
  {| client := newKubernetesObjectApi Demo.base ∅ false; requests := [] |}.

(** A server whose answers lack a body. *)
Definition silent (history : list RequestOptions) (r : RequestOptions) : NetReply :=
  if String.eqb (uri r) (Demo.base +:+ "/api/v1") then Demo.reply 200 (Some Demo.coreV1)
  else Demo.reply 500 None.

Definition mute : Runtime :=
  {| serialize := Demo.pass;
     deserialize := Demo.decode;
     transport := silent;
     urlPathname := Demo.pathname;
     httpErrorMessage := "HTTP request failed" |}.

(** A pod whose name holds a path separator and capitals. *)
Definition oddPod : KubernetesObject :=
  Demo.object (Some "v1") (Some "Pod") (Some "default") (Some "a/B").

(** The same pod in a namespace with a space and capitals. *)
Definition spacedPod : KubernetesObject :=
  Demo.object (Some "v1") (Some "Pod") (Some "Team A") (Some "a/B").

(** A pod whose apiVersion is the name of a property every object
    inherits. *)
Definition constructorPod : KubernetesObject :=
  Demo.object (Some "constructor") (Some "Pod") (Some "default") (Some "web").

(** A server that answers discovery with a status object, which has no
    [resources], under a 2xx code. *)
Definition statusOnly : json :=
  JObj [("apiVersion", JStr "v1"); ("kind", JStr "Status")].

Definition vague (history : list RequestOptions) (r : RequestOptions) : NetReply :=
  Demo.reply 200 (Some statusOnly).

Definition misled : Runtime :=
  {| serialize := Demo.pass;
     deserialize := Demo.decode;
     transport := vague;
     urlPathname := Demo.pathname;
     httpErrorMessage := "HTTP request failed" |}.

(** The client after it has asked that server for the resources of [v1]. *)
Definition poisoned : ApiState :=
  snd (resource misled (Some "v1") (Some "Pod") Demo.start).

Definition namespaceResource : V1APIResource :=
  Demo.resourceOf (Demo.entry "Namespace" "namespaces" false).

End Lab.

(** ** Strings *)

Lemma append_cons (x : ascii) (a b : string) :
  String x a +:+ b = String x (a +:+ b).
Proof. reflexivity. Qed.

Lemma append_nil (b : string) : "" +:+ b = b.
Proof. reflexivity. Qed.

Lemma append_assoc (a b c : string) : (a +:+ b) +:+ c = a +:+ (b +:+ c).
Proof.
  induction a as [|x a IH]; [reflexivity |].
  by rewrite !append_cons, IH.
Qed.

Lemma join_flatten (sep : string) (l1 l2 : list string) :
  l1 <> [] -> JS.join sep (JS.join sep l1 :: l2) = JS.join sep (l1 ++ l2).
Proof.
  unfold JS.join. induction l1 as [|x [|y l1] IH]; intros Hne.
  - congruence.
  - reflexivity.
  - specialize (IH ltac:(discriminate)).
    destruct l2 as [|z l2].
    + by rewrite app_nil_r.
    + change (String.concat sep ((x :: y :: l1) ++ z :: l2))
        with (x +:+ sep +:+ String.concat sep ((y :: l1) ++ z :: l2)).
      rewrite <- IH.
      change (String.concat sep (String.concat sep (x :: y :: l1) :: z :: l2))
        with ((x +:+ sep +:+ String.concat sep (y :: l1)) +:+ sep
              +:+ String.concat sep (z :: l2)).
      change (String.concat sep (String.concat sep (y :: l1) :: z :: l2))
        with (String.concat sep (y :: l1) +:+ sep +:+ String.concat sep (z :: l2)).
      by rewrite !append_assoc.
Qed.

Lemma lowerChar_not_upper (c : ascii) : JS.isUpper (JS.lowerChar c) = false.
Proof. destruct c as [[] [] [] [] [] [] [] []]; reflexivity. Qed.

Lemma toLowerCase_lowerCased (s : string) : lowerCased (JS.toLowerCase s) = true.
Proof.
  unfold JS.toLowerCase.
  induction s as [|c s IH]; simpl; [reflexivity |].
  by rewrite lowerChar_not_upper, IH.
Qed.

Lemma lowerCased_fixed (s : string) : lowerCased s = true -> JS.toLowerCase s = s.
Proof.
  unfold JS.toLowerCase.
  induction s as [|c s IH]; simpl; [reflexivity |].
  intros [Hc Hs]%andb_prop. rewrite (IH Hs).
  unfold JS.lowerChar. apply negb_true_iff in Hc. by rewrite Hc.
Qed.

Lemma toLowerCase_idempotent (s : string) :
  JS.toLowerCase (JS.toLowerCase s) = JS.toLowerCase s.
Proof. apply lowerCased_fixed, toLowerCase_lowerCased. Qed.

Lemma unreserved_not_slash (c : ascii) :
  JS.isUnreserved c = true -> Ascii.eqb c "/" = false.
Proof. destruct c as [[] [] [] [] [] [] [] []]; vm_compute; congruence. Qed.

Lemma percentEncode_no_slash (c : ascii) :
  JS.includes "/" (JS.percentEncode c) = false.
Proof. destruct c as [[] [] [] [] [] [] [] []]; reflexivity. Qed.

Lemma includes_append (c : ascii) (a b : string) :
  JS.includes c (a +:+ b) = (JS.includes c a || JS.includes c b)%bool.
Proof.
  induction a as [|x a IH]; [reflexivity |].
  rewrite append_cons. simpl.
  destruct (Ascii.eqb x c); [reflexivity | exact IH].
Qed.

(** An escaped segment cannot add a path separator. *)
Lemma encodeURIComponent_no_slash (s : string) :
  JS.includes "/" (JS.encodeURIComponent s) = false.
Proof.
  induction s as [|c s IH]; simpl; [reflexivity |].
  destruct (JS.isUnreserved c) eqn:Hc.
  - simpl. by rewrite (unreserved_not_slash c Hc).
  - by rewrite includes_append, percentEncode_no_slash, IH.
Qed.

Lemma truthy_Some (o : option string) :
  JS.truthy o = true -> exists v, o = Some v /\ v <> "".
Proof. destruct o as [[|c v]|]; simpl; intros H; try discriminate; eauto. Qed.

(** The string functions on the shapes the client meets. *)
Lemma append_nil_r (s : string) : s +:+ "" = s.
Proof. induction s as [|c s IH]; [reflexivity |]. by rewrite append_cons, IH. Qed.

Lemma includes_inString (c : ascii) (s : string) : JS.includes c s = inString c s.
Proof.
  unfold inString. induction s as [|d s IH]; simpl; [reflexivity |].
  rewrite (Ascii.eqb_sym c d). by destruct (Ascii.eqb d c).
Qed.

Lemma isUnreserved_inString (c : ascii) :
  JS.isUnreserved c = inString c unreservedCharacters.
Proof. destruct c as [[] [] [] [] [] [] [] []]; reflexivity. Qed.

Lemma percentEncode_digits (c : ascii) :
  exists hi lo,
    JS.percentEncode c = String "%" (String hi (String lo ""))
    /\ HexDigit (Nat.div (nat_of_ascii c) 16) hi
    /\ HexDigit (Nat.modulo (nat_of_ascii c) 16) lo.
Proof.
  destruct c as [[] [] [] [] [] [] [] []];
    eexists; eexists; (split; [reflexivity |]); split; reflexivity.
Qed.

(** [encodeURIComponent] percent-encodes. *)
Lemma encodeURIComponent_PercentEncoded (s : string) :
  PercentEncoded s (JS.encodeURIComponent s).
Proof.
  induction s as [|c s IH]; simpl; [constructor |].
  rewrite isUnreserved_inString.
  destruct (inString c unreservedCharacters) eqn:Hc.
  - by constructor.
  - destruct (percentEncode_digits c) as (hi & lo & -> & Hhi & Hlo).
    rewrite !append_cons, append_nil. by constructor.
Qed.

(** Percent-encoding determines its result. *)
Lemma PercentEncoded_unique (raw out out' : string) :
  PercentEncoded raw out -> PercentEncoded raw out' -> out = out'.
Proof.
  intros H. revert out'. induction H as [|c raw out Hc _ IH|c hi lo raw out Hc Hhi Hlo _ IH];
    intros out' H'; inversion H'; subst; try congruence.
  - f_equal. by apply IH.
  - unfold HexDigit in *. f_equal. f_equal; [congruence |].
    f_equal; [congruence |]. by apply IH.
Qed.

Lemma lowerChar_spec (c : ascii) :
  (exists i, nth_error (list_ascii_of_string capitalLetters) i = Some c
             /\ nth_error (list_ascii_of_string smallLetters) i
                = Some (JS.lowerChar c))
  \/ (inString c capitalLetters = false /\ JS.lowerChar c = c).
Proof.
  destruct c as [[] [] [] [] [] [] [] []];
    first [ right; split; reflexivity
          | left;
            match goal with
            | |- exists i, nth_error _ i = Some ?c /\ _ =>
                exists (nat_of_ascii c - 65)%nat; split; reflexivity
            end ].
Qed.

(** [toLowerCase] puts a string in lower case. *)
Lemma toLowerCase_LowerCaseOf (s : string) : LowerCaseOf s (JS.toLowerCase s).
Proof.
  unfold JS.toLowerCase. induction s as [|c s IH]; simpl; [constructor |].
  destruct (lowerChar_spec c) as [(i & Hc & Hd)|[Hc Hd]].
  - by apply (lc_capital i).
  - rewrite Hd. by constructor.
Qed.

Lemma find_first (kind : string) (entries : list V1APIResource) (r : V1APIResource) :
  List.find (fun x => String.eqb (res_kind x) kind) entries = Some r
  <-> FirstOfKind kind entries r.
Proof.
  unfold FirstOfKind. induction entries as [|x entries IH]; simpl.
  - split; [discriminate |]. intros (before & after & H & _). by destruct before.
  - destruct (String.eqb_spec (res_kind x) kind) as [Hx|Hx].
    + split.
      * intros [= ->]. exists [], entries. by repeat split.
      * intros ([|y before] & after & H & Hk & Hb).
        -- by injection H as ->.
        -- injection H as -> _. by apply Forall_inv in Hb.
    + split.
      * intros H. apply IH in H as (before & after & -> & Hk & Hb).
        exists (x :: before), after. repeat split; [done |]. by constructor.
      * intros ([|y before] & after & H & Hk & Hb).
        -- injection H as -> _. contradiction.
        -- injection H as -> ->. apply IH. exists before, after.
           repeat split; [done |]. by apply Forall_inv_tail in Hb.
Qed.

Lemma find_none (kind : string) (entries : list V1APIResource) :
  List.find (fun x => String.eqb (res_kind x) kind) entries = None
  <-> NoneOfKind kind entries.
Proof.
  unfold NoneOfKind. induction entries as [|x entries IH]; simpl.
  - split; [constructor | reflexivity].
  - destruct (String.eqb_spec (res_kind x) kind) as [Hx|Hx].
    + split; [discriminate |]. intros H. by apply Forall_inv in H.
    + rewrite IH. split.
      * intros H. by constructor.
      * intros H. by apply Forall_inv_tail in H.
Qed.

Example split_group_version :
  JS.split "/" "apps/v1" = ["apps"; "v1"] /\ JS.split "/" "v1" = ["v1"]
  /\ JS.split "/" "" = [""] /\ JS.split "/" "a//b" = ["a"; ""; "b"].
Proof. repeat split. Qed.

Example encodeURIComponent_escapes :
  JS.encodeURIComponent "kube-system" = "kube-system"
  /\ JS.encodeURIComponent "a/B c" = "a%2FB%20c".
Proof. split; reflexivity. Qed.

Example getSerializationType_examples :
  getSerializationType (Some (JStr "apps/v1")) (Some (JStr "Deployment"))
  = Ok "V1Deployment"
  /\ getSerializationType (Some (JStr "v1beta1")) (Some (JStr "Lease"))
     = Ok "V1beta1Lease"
  /\ getSerializationType None (Some (JStr "Pod")) = Ok "KubernetesObject".
Proof. repeat split. Qed.

(** ** The request primitive *)

Section Properties.

Variable rt : Runtime.

Lemma requestPromise_state (req : RequestOptions) (type : option string) (s : ApiState) :
  snd (requestPromise rt req type s) = record_request req s.
Proof.
  unfold requestPromise.
  destruct (transport rt (requests s) req) as [e|response body]; [reflexivity |].
  destruct type as [t|]; simpl.
  - by destruct (is2xx _).
  - destruct (getProp body "apiVersion") as [a|e]; [|reflexivity].
    destruct (getProp body "kind") as [k|e]; [|reflexivity].
    destruct (getSerializationType a k); [|reflexivity].
    by destruct (is2xx _).
Qed.

Lemma requestPromise_failure (req : RequestOptions) (type : option string)
  (s : ApiState) (e : JsError) :
  transport rt (requests s) req = NetFailure e ->
  requestPromise rt req type s = (Rejected e, record_request req s).
Proof. intros H. unfold requestPromise. by rewrite H. Qed.

Lemma requestPromise_typed (req : RequestOptions) (t : string) (s : ApiState)
  (response : IncomingMessage) (body : any) :
  transport rt (requests s) req = NetResponse response body ->
  requestPromise rt req (Some t) s
  = (settle rt response (deserialize rt body t), record_request req s).
Proof.
  intros H. unfold requestPromise, settle. rewrite H.
  by destruct (is2xx _).
Qed.

Lemma requestPromise_untyped (req : RequestOptions) (s : ApiState)
  (response : IncomingMessage) (body : any) :
  transport rt (requests s) req = NetResponse response body ->
  requestPromise rt req None s
  = (match bodyType body with
     | Ok t => settle rt response (deserialize rt body t)
     | Throw _ => Pending
     end, record_request req s).
Proof.
  intros H. unfold requestPromise, settle, bodyType. rewrite H.
  destruct (getProp body "apiVersion") as [a|e]; [|reflexivity].
  destruct (getProp body "kind") as [k|e]; [|reflexivity].
  destruct (getSerializationType a k); [|reflexivity].
  by destruct (is2xx _).
Qed.

(** With no type given, an answer without a body ([undefined] or [null])
    never settles the promise: reading [body.apiVersion] throws inside the
    response callback. *)
Lemma requestPromise_absent_body (req : RequestOptions) (s : ApiState)
  (response : IncomingMessage) (body : any) :
  transport rt (requests s) req = NetResponse response body ->
  body = None \/ body = Some JNull ->
  requestPromise rt req None s = (Pending, record_request req s).
Proof.
  intros Ht Hb. rewrite (requestPromise_untyped _ _ _ _ Ht).
  by destruct Hb as [-> | ->].
Qed.

(** [read] wants an apiVersion of its caller: it rejects before the path
    builder could supply the default. *)
Lemma read_requires_apiVersion (spec : KubernetesObject) (kind : string)
  (pretty : option string) (exact exportt : option bool)
  (options : option CallOptions) (s : ApiState) :
  obj_kind spec = Some kind ->
  JS.truthy (obj_apiVersion spec) = false ->
  read rt (Some spec) pretty exact exportt options s
  = (Rejected (Error "Required parameter spec.apiVersion was null or undefined when calling read."),
     Some spec, s).
Proof. intros Hk Hv. unfold read. by rewrite Hk, Hv. Qed.

(** ** The resolver *)

Lemma findIn_found (kind : string) (l : V1APIResourceList) (r : V1APIResource) :
  findKind kind l = Some r -> findIn kind l = Ok (Some r).
Proof. intros H. unfold findIn. by rewrite H. Qed.

Lemma findIn_Some (kind : string) (l : V1APIResourceList) (r : V1APIResource) :
  findIn kind l = Ok (Some r) -> findKind kind l = Some r.
Proof.
  unfold findIn. destruct (findKind kind l) as [r0|]; [by intros [= ->] |].
  by destruct (rl_throws l).
Qed.

Lemma findIn_None (kind : string) (l : V1APIResourceList) :
  findIn kind l = Ok None <-> findKind kind l = None /\ rl_throws l = None.
Proof.
  unfold findIn. destruct (findKind kind l) as [r0|], (rl_throws l); split;
    (done || by intros [? ?]).
Qed.

Lemma findIn_inherited (kind : string) :
  findIn kind inheritedValue
  = Throw (TypeError "Cannot read properties of undefined (reading 'find')").
Proof. reflexivity. Qed.

(** A body whose search runs to the end is an object, hence truthy. *)
Lemma searchOf_sound_truthy (v : any) :
  snd (searchOf v) = None -> truthyValue v = true.
Proof.
  destruct v as [[| | | | |fields]|]; simpl; try discriminate. done.
Qed.

Lemma searchOf_entries_truthy (v : any) :
  fst (searchOf v) <> [] -> truthyValue v = true.
Proof.
  destruct v as [[| | | | |fields]|]; simpl; try done.
Qed.

Lemma store_truthy (gv : string) (v : any) (s : ApiState) :
  truthyValue v = true -> store gv v s = set_cache gv (asV1APIResourceList v) s.
Proof. intros H. unfold store. by rewrite H. Qed.

Lemma store_frame (gv : string) (v : any) (s : ApiState) :
  basePath (client (store gv v s)) = basePath (client s)
  /\ defaultNamespace (client (store gv v s)) = defaultNamespace (client s)
  /\ _defaultHeaders (client (store gv v s)) = _defaultHeaders (client s)
  /\ _useQuerystring (client (store gv v s)) = _useQuerystring (client s)
  /\ watcher (client (store gv v s)) = watcher (client s)
  /\ requests (store gv v s) = requests s.
Proof. unfold store. by destruct (truthyValue v). Qed.

Lemma store_other (gv gv' : string) (v : any) (s : ApiState) :
  gv' <> gv ->
  apiVersionResourceCache (client (store gv v s)) !! gv'
  = apiVersionResourceCache (client s) !! gv'.
Proof.
  intros H. unfold store. destruct (truthyValue v); simpl.
  - by apply lookup_insert_ne.
  - by apply lookup_delete_ne.
Qed.

Lemma searchCache_own (this : KubernetesObjectApi) (gv kind : string)
  (l : V1APIResourceList) :
  apiVersionResourceCache this !! gv = Some l ->
  searchCache this gv kind = findIn kind l.
Proof. intros H. unfold searchCache, cached. by rewrite H. Qed.

Lemma searchCache_absent (this : KubernetesObjectApi) (gv kind : string) :
  apiVersionResourceCache this !! gv = None ->
  searchCache this gv kind
  = if isInherited gv
    then Throw (TypeError "Cannot read properties of undefined (reading 'find')")
    else Ok None.
Proof. intros H. unfold searchCache, cached. rewrite H. by destruct (isInherited gv). Qed.

(** The search of the cache finds a descriptor only in a list the cache
    itself holds. *)
Lemma searchCache_Some (this : KubernetesObjectApi) (gv kind : string)
  (r : V1APIResource) :
  searchCache this gv kind = Ok (Some r) <->
  apiVersionResourceCache this !! gv ≫= findKind kind = Some r.
Proof.
  destruct (apiVersionResourceCache this !! gv) as [l|] eqn:Hl.
  - rewrite (searchCache_own _ _ _ _ Hl). simpl. split.
    + apply findIn_Some.
    + apply findIn_found.
  - rewrite (searchCache_absent _ _ _ Hl). simpl.
    by destruct (isInherited gv).
Qed.

(** The search of the cache goes on to the fetch only when the cache has no
    descriptor of the pair. *)
Lemma searchCache_None (this : KubernetesObjectApi) (gv kind : string) :
  searchCache this gv kind = Ok None ->
  apiVersionResourceCache this !! gv ≫= findKind kind = None.
Proof.
  destruct (apiVersionResourceCache this !! gv) as [l|] eqn:Hl.
  - rewrite (searchCache_own _ _ _ _ Hl). simpl. intros H.
    by apply findIn_None in H as [? _].
  - done.
Qed.

(** When the search of the cache sends the resolver to the server: the
    cache holds nothing under the name, which is not an inherited one, or it
    holds a list without the kind that can be searched to its end. *)
Lemma searchCache_fetches (this : KubernetesObjectApi) (gv kind : string) :
  searchCache this gv kind = Ok None
  <-> (apiVersionResourceCache this !! gv = None /\ isInherited gv = false)
      \/ (exists l, apiVersionResourceCache this !! gv = Some l
                    /\ findKind kind l = None /\ rl_throws l = None).
Proof.
  destruct (apiVersionResourceCache this !! gv) as [l|] eqn:Hl.
  - rewrite (searchCache_own _ _ _ _ Hl), findIn_None. split.
    + intros H. right. by exists l.
    + intros [[? _]|(l' & [= <-] & H)]; done.
  - rewrite (searchCache_absent _ _ _ Hl). split.
    + destruct (isInherited gv); [discriminate |]. intros _. by left.
    + intros [[_ ->]|(l' & ? & _)]; done.
Qed.

Lemma resource_hit (gv kind : string) (s : ApiState) (r : V1APIResource) :
  apiVersionResourceCache (client s) !! gv ≫= findKind kind = Some r ->
  resource rt (Some gv) (Some kind) s = (Resolved (Some r), s).
Proof.
  intros H. apply searchCache_Some in H. unfold resource. by rewrite H.
Qed.

Lemma resource_throws (gv kind : string) (s : ApiState) (e : JsError) :
  searchCache (client s) gv kind = Throw e ->
  resource rt (Some gv) (Some kind) s = (Rejected e, s).
Proof. intros H. unfold resource. by rewrite H. Qed.

Lemma resource_miss (gv kind : string) (s : ApiState) :
  searchCache (client s) gv kind = Ok None ->
  let req := discoveryRequest (client s) gv in
  resource rt (Some gv) (Some kind) s
  = match transport rt (requests s) req with
    | NetFailure e => (Rejected (fetchError gv kind e), record_request req s)
    | NetResponse response body =>
        let decoded := deserialize rt body "V1APIResourceList" in
        if is2xx (statusCode response)
        then (match findIn kind (asV1APIResourceList decoded) with
              | Ok found => Resolved found
              | Throw e => Rejected (fetchError gv kind e)
              end,
              store gv decoded (record_request req s))
        else (Rejected (fetchError gv kind
                          (HttpError (httpErrorMessage rt) response decoded
                             (statusCode response))),
              record_request req s)
    end.
Proof.
  intros H req. unfold resource. rewrite H.
  change {| method := "GET"; qs := ∅;
            headers := generateHeaders (client s) ∅ None;
            uri := apiVersionPath (client s) gv;
            useQuerystring := _useQuerystring (client s);
            json_flag := true; body := None |} with req.
  destruct (transport rt (requests s) req) as [e|response body] eqn:Ht.
  - by rewrite (requestPromise_failure _ _ _ _ Ht).
  - rewrite (requestPromise_typed _ _ _ _ _ Ht). unfold settle.
    destruct (is2xx _); [|reflexivity]. simpl.
    by destruct (findIn kind _) as [found|e].
Qed.

(** The resolver never leaves its promise unsettled, changes nothing of
    the client but the cache, and hands the transport at most the one
    discovery request. *)
Lemma resource_effects (gv kind : option string) (s : ApiState)
  (o : Outcome (option V1APIResource)) (s' : ApiState) :
  resource rt gv kind s = (o, s') ->
  o <> Pending
  /\ basePath (client s') = basePath (client s)
  /\ defaultNamespace (client s') = defaultNamespace (client s)
  /\ _defaultHeaders (client s') = _defaultHeaders (client s)
  /\ _useQuerystring (client s') = _useQuerystring (client s)
  /\ watcher (client s') = watcher (client s)
  /\ (requests s' = requests s
      \/ exists v, gv = Some v
                   /\ requests s' = requests s ++ [discoveryRequest (client s) v]).
Proof.
  destruct gv as [gv|]; [destruct kind as [kind|] |]; cycle 1.
  - intros [= <- <-]. repeat split; (done || (left; done)).
  - intros [= <- <-]. repeat split; (done || (left; done)).
  - destruct (searchCache (client s) gv kind) as [[r|]|e] eqn:Hc.
    + apply searchCache_Some in Hc. rewrite (resource_hit _ _ _ _ Hc).
      intros [= <- <-]. repeat split; (done || (left; done)).
    + rewrite (resource_miss _ _ _ Hc). simpl.
      destruct (transport rt _ _) as [e|response body];
        [|destruct (is2xx _)]; cycle 1.
      * pose proof (store_frame gv (deserialize rt body "V1APIResourceList")
                      (record_request (discoveryRequest (client s) gv) s))
          as (Hb & Hd & Hh & Hq & Hw & Hreq).
        intros [= <- <-]. rewrite Hb, Hd, Hh, Hq, Hw, Hreq.
        split; [by destruct (findIn _ _) |].
        repeat split; try done. right. eexists. split; reflexivity.
      * intros [= <- <-].
        repeat split; (done || (right; eexists; split; reflexivity)).
      * intros [= <- <-].
        repeat split; (done || (right; eexists; split; reflexivity)).
    + rewrite (resource_throws _ _ _ _ Hc). intros [= <- <-].
      repeat split; (done || (left; done)).
Qed.

(** ** The path builder *)

Lemma specUriPath_no_kind (spec : KubernetesObject) (action : KubernetesApiAction)
  (s : ApiState) :
  JS.truthy (obj_kind spec) = false ->
  specUriPath rt spec action s = (Rejected kindNotSet, spec, s).
Proof. intros H. unfold specUriPath. by rewrite H. Qed.

Lemma effectiveApiVersion_truthy (spec : KubernetesObject) :
  JS.truthy (Some (effectiveApiVersion spec)) = true.
Proof. unfold effectiveApiVersion. by destruct (obj_apiVersion spec) as [[|c v]|]. Qed.

Lemma specUriPath_unresolved (spec : KubernetesObject) (action : KubernetesApiAction)
  (s : ApiState) (o : Outcome (option V1APIResource)) (s' : ApiState) :
  JS.truthy (obj_kind spec) = true ->
  resource rt (Some (effectiveApiVersion spec)) (obj_kind spec) s = (o, s') ->
  (forall r, o <> Resolved (Some r)) ->
  specUriPath rt spec action s
  = (match o with
     | Rejected e => Rejected e
     | _ => Rejected (Error ("Unrecognized API version and kind: "
                             +:+ effectiveApiVersion spec +:+ " "
                             +:+ default "" (obj_kind spec)))
     end, prepared spec, s').
Proof.
  intros Hk Hr Hno.
  assert (o <> Pending) as Hp by (by eapply resource_effects).
  unfold specUriPath. rewrite Hk. simpl.
  unfold prepared, effectiveApiVersion in *.
  destruct spec as [[[|c v]|] k [m|] rest]; simpl in *;
    rewrite Hr; destruct o as [[r|]|e|]; try reflexivity;
    solve [by destruct (Hno r) | done].
Qed.

Lemma specUriPath_resolved (spec : KubernetesObject) (action : KubernetesApiAction)
  (s : ApiState) (r : V1APIResource) (s' : ApiState) :
  JS.truthy (obj_kind spec) = true ->
  resource rt (Some (effectiveApiVersion spec)) (obj_kind spec) s
  = (Resolved (Some r), s') ->
  let namespace :=
    effectiveNamespace (defaultNamespace (client s')) (res_namespaced r) action
      (specNamespace spec) in
  specUriPath rt spec action s
  = (if (isSingleObject action && negb (JS.truthy (specName spec)))%bool
     then Rejected nameNotSet
     else Resolved
            (JS.toLowerCase
               (JS.join "/"
                  (pathSegments (basePath (client s')) (effectiveApiVersion spec)
                     (res_namespaced r) namespace (res_name r) (specName spec)
                     action))),
     defaultedSpec (defaultNamespace (client s')) r action spec, s').
Proof.
  intros Hk Hr namespace. subst namespace.
  unfold specUriPath. rewrite Hk. simpl.
  unfold pathSegments, apiVersionPath, defaultedSpec, effectiveNamespace,
    specNamespace, specName, rootSegment, effectiveApiVersion in *.
  destruct spec as [[[|c v]|] k [[[[|cn n]|] [[|cs ns]|] mr]|] rest]; simpl in *;
    rewrite Hr; simpl;
    destruct (res_namespaced r), action, (defaultNamespace (client s'));
    simpl; try (rewrite join_flatten by discriminate); reflexivity.
Qed.

(** ** The operations *)

Lemma perform_path (c : Call) (spec : KubernetesObject) (s : ApiState) :
  pathInput c = Some spec ->
  perform rt c s = performFrom rt c (specUriPath rt spec (callAction c) s).
Proof.
  unfold performFrom.
  destruct c as [o ? ? ? ?|o ? ? ? ? ? ? ?|o ? ? ? ? ?|o ? ? ? ?|a k ? ? ? ? ? ? ? ? ?|o ? ? ? ?];
    simpl; intros H.
  - subst o. unfold create.
    destruct (specUriPath rt spec ActionCreate s) as [[[path|e|] spec'] s1];
      simpl; try reflexivity.
    by destruct (requestPromise _ _ _ _).
  - subst o. unfold delete_.
    destruct (specUriPath rt spec ActionDelete s) as [[[path|e|] spec'] s1];
      simpl; try reflexivity.
    by destruct (requestPromise _ _ _ _).
  - subst o. unfold patch.
    destruct (specUriPath rt spec ActionPatch s) as [[[path|e|] spec'] s1];
      simpl; try reflexivity.
    by destruct (requestPromise _ _ _ _).
  - destruct o as [o|]; [|discriminate]. simpl in H. unfold read.
    destruct (obj_kind o); [|discriminate].
    destruct (JS.truthy (obj_apiVersion o)); [|discriminate].
    injection H as ->. simpl.
    destruct (specUriPath rt spec ActionRead s) as [[[path|e|] spec'] s1];
      simpl; try reflexivity.
    by destruct (requestPromise _ _ _ _).
  - destruct a as [a|]; [|discriminate]. destruct k as [k|]; [|discriminate].
    simpl in H. injection H as <-. unfold list_.
    destruct (specUriPath rt (headerOf a k _) ActionList s)
      as [[[path|e|] spec'] s1]; simpl; try reflexivity.
    by destruct (requestPromise _ _ _ _).
  - subst o. unfold replace.
    destruct (specUriPath rt spec ActionReplace s) as [[[path|e|] spec'] s1];
      simpl; try reflexivity.
    by destruct (requestPromise _ _ _ _).
Qed.

End Properties.

(** ** Claims on the path builder *)

Section PathBuilder.

Variable rt : Runtime.

(** C1.  For a spec with a non-empty kind that resolves to a descriptor
    (and with a name when the action is a single-object one), the path
    built is, put in lower case, the text made of, in order and separated
    by ["/"]: the base path, the root segment (["apis"] when apiVersion
    contains ["/"], else ["api"]), the apiVersion, the pair ["namespaces"],
    namespace exactly when the descriptor is namespaced and a namespace is
    set, the plural name, and the name exactly when the action is read,
    replace, patch or delete.  The namespace and the name stand in it
    percent-encoded: every character other than a letter, a digit and
    [- _ . ! ~ * ' ( )] as ["%"] and the two hexadecimal digits of its
    value.  No capital letter is left in the path. *)
Theorem specUriPath_builds_segments (spec : KubernetesObject)
  (action : KubernetesApiAction) (s : ApiState) (r : V1APIResource) (s' : ApiState) :
  JS.truthy (obj_kind spec) = true ->
  resource rt (Some (effectiveApiVersion spec)) (obj_kind spec) s
  = (Resolved (Some r), s') ->
  (isSingleObject action = true -> JS.truthy (specName spec) = true) ->
  let apiVersion := effectiveApiVersion spec in
  let namespace :=
    effectiveNamespace (defaultNamespace (client s)) (res_namespaced r) action
      (specNamespace spec) in
  exists namespaceSegment nameSegment path,
    PercentEncoded (default "" namespace) namespaceSegment
    /\ PercentEncoded (default "" (specName spec)) nameSegment
    /\ fst (fst (specUriPath rt spec action s)) = Resolved path
    /\ LowerCaseOf
         (basePath (client s)
          +:+ "/" +:+ (if inString "/" apiVersion then "apis" else "api")
          +:+ "/" +:+ apiVersion
          +:+ (if (res_namespaced r && JS.truthy namespace)%bool
               then "/namespaces/" +:+ namespaceSegment
               else "")
          +:+ "/" +:+ res_name r
          +:+ match action with
              | ActionRead | ActionReplace | ActionPatch | ActionDelete =>
                  "/" +:+ nameSegment
              | ActionCreate | ActionList => ""
              end)
         path
    /\ lowerCased path = true.
Proof.
  intros Hk Hr Hname apiVersion namespace.
  destruct (resource_effects rt _ _ _ _ _ Hr) as (_ & Hb & Hd & _).
  exists (JS.encodeURIComponent (default "" namespace)),
    (JS.encodeURIComponent (default "" (specName spec))).
  eexists.
  split; [apply encodeURIComponent_PercentEncoded |].
  split; [apply encodeURIComponent_PercentEncoded |].
  rewrite (specUriPath_resolved rt spec action s r s' Hk Hr). simpl.
  rewrite Hb, Hd. fold namespace. fold apiVersion.
  assert ((isSingleObject action && negb (JS.truthy (specName spec)))%bool = false)
    as ->.
  { destruct (isSingleObject action); [|reflexivity]. by rewrite (Hname eq_refl). }
  split; [reflexivity |]. split; [|apply toLowerCase_lowerCased].
  match goal with
  | |- LowerCaseOf ?text (JS.toLowerCase ?joined) =>
      replace text with joined; [apply toLowerCase_LowerCaseOf |]
  end.
  unfold pathSegments, rootSegment. rewrite <- includes_inString.
  destruct (res_namespaced r && JS.truthy namespace)%bool, action;
    simpl; rewrite ?append_nil_r; reflexivity.
Qed.

(** C4.  In a path build that resolves a descriptor: an absent apiVersion
    is no error, the build goes as if ["v1"] had been given and the spec
    carries ["v1"] afterwards; for a namespaced descriptor, an action other
    than list and no namespace set, the namespace is filled with the
    default namespace; for list the path ends with the plural name, no name
    segment follows whatever name is supplied, and the namespace is left
    as it was. *)
Theorem specUriPath_defaults (spec : KubernetesObject)
  (action : KubernetesApiAction) (s : ApiState) (r : V1APIResource) (s' : ApiState) :
  JS.truthy (obj_kind spec) = true ->
  resource rt (Some (effectiveApiVersion spec)) (obj_kind spec) s
  = (Resolved (Some r), s') ->
  let apiVersion := effectiveApiVersion spec in
  let final := snd (fst (specUriPath rt spec action s)) in
  (JS.truthy (obj_apiVersion spec) = false ->
   apiVersion = "v1"
   /\ specUriPath rt spec action s
      = specUriPath rt (with_apiVersion spec "v1") action s
   /\ obj_apiVersion final = Some "v1")
  /\ (res_namespaced r = true -> isList action = false ->
      JS.truthy (specNamespace spec) = false ->
      specNamespace final = Some (defaultNamespace (client s)))
  /\ (action = ActionList ->
      fst (fst (specUriPath rt spec action s))
      = Resolved
          (JS.toLowerCase
             (JS.join "/"
                ([basePath (client s); rootSegment apiVersion; apiVersion]
                 ++ (if (res_namespaced r && JS.truthy (specNamespace spec))%bool
                     then ["namespaces";
                           JS.encodeURIComponent (default "" (specNamespace spec))]
                     else [])
                 ++ [res_name r])))
      /\ specNamespace final = specNamespace spec).
Proof.
  intros Hk Hr apiVersion final.
  destruct (resource_effects rt _ _ _ _ _ Hr) as (_ & Hb & Hd & _).
  assert (JS.truthy (obj_apiVersion spec) = false ->
          specUriPath rt spec action s
          = specUriPath rt (with_apiVersion spec "v1") action s) as Hsame.
  { intros Hv. unfold specUriPath.
    destruct spec as [[[|c v]|] k m rest]; simpl in *;
      try discriminate; by rewrite Hk. }
  subst final. rewrite (specUriPath_resolved rt spec action s r s' Hk Hr) in *.
  simpl. rewrite Hb, Hd in Hsame. rewrite Hb, Hd. repeat split.
  - subst apiVersion. unfold effectiveApiVersion.
    by destruct (obj_apiVersion spec) as [[|c v]|].
  - by apply Hsame.
  - unfold effectiveApiVersion.
    by destruct (obj_apiVersion spec) as [[|c v]|].
  - intros Hn Hl Hu. unfold specNamespace at 1. simpl.
    unfold effectiveNamespace. by rewrite Hn, Hl, Hu.
  - subst action. simpl. unfold pathSegments, effectiveNamespace. simpl.
    by rewrite andb_false_r.
  - subst action. unfold specNamespace at 1. simpl.
    unfold effectiveNamespace. simpl. by rewrite andb_false_r.
Qed.

(** C10.  Every operation given a spec hands that very object to the path
    builder and gets it back as the builder left it.  After a successful
    path build the spec's apiVersion is set (to ["v1"] when it was absent,
    unchanged otherwise), its metadata exists, the namespace of the
    metadata is the default namespace when the resource is namespaced, the
    action is not list and no namespace was set, and is unchanged
    otherwise; the kind, the name, the other metadata and the other fields
    of the spec are as before. *)
Theorem path_build_mutates_spec (c : Call) (spec : KubernetesObject) (s : ApiState)
  (path : string) (spec' : KubernetesObject) (s' : ApiState) :
  pathInput c = Some spec ->
  hasCallerSpec c = true ->
  specUriPath rt spec (callAction c) s = (Resolved path, spec', s') ->
  snd (fst (perform rt c s)) = Some spec'
  /\ exists r metadata,
      resource rt (Some (effectiveApiVersion spec)) (obj_kind spec) s
      = (Resolved (Some r), s')
      /\ obj_apiVersion spec'
         = (if JS.truthy (obj_apiVersion spec) then obj_apiVersion spec
            else Some "v1")
      /\ obj_metadata spec' = Some metadata
      /\ meta_namespace metadata
         = (if (res_namespaced r && negb (isList (callAction c))
                && negb (JS.truthy (specNamespace spec)))%bool
            then Some (defaultNamespace (client s))
            else specNamespace spec)
      /\ meta_name metadata = specName spec
      /\ meta_rest metadata = default [] (meta_rest <$> obj_metadata spec)
      /\ obj_kind spec' = obj_kind spec
      /\ obj_rest spec' = obj_rest spec.
Proof.
  intros Hin Hcaller Hpath. split.
  - rewrite (perform_path rt c spec s Hin). unfold performFrom.
    rewrite Hpath. simpl. rewrite Hcaller.
    by destruct (requestPromise _ _ _ _).
  - destruct (JS.truthy (obj_kind spec)) eqn:Hk; cycle 1.
    { rewrite (specUriPath_no_kind rt _ _ _ Hk) in Hpath. discriminate. }
    destruct (resource rt (Some (effectiveApiVersion spec)) (obj_kind spec) s)
      as [o s1] eqn:Hr.
    destruct o as [[r|]|e|].
    + destruct (resource_effects rt _ _ _ _ _ Hr) as (_ & _ & Hd & _).
      rewrite (specUriPath_resolved rt spec _ s r s1 Hk Hr) in Hpath.
      destruct (_ && _)%bool in Hpath; [discriminate|].
      injection Hpath as _ <- <-.
      exists r. eexists. split; [reflexivity|]. simpl.
      split; [|split; [reflexivity|]].
      { unfold effectiveApiVersion. by destruct (obj_apiVersion spec) as [[|? ?]|]. }
      simpl. rewrite Hd. done.
    + rewrite (specUriPath_unresolved rt spec _ s _ s1 Hk Hr) in Hpath
        by discriminate. discriminate.
    + rewrite (specUriPath_unresolved rt spec _ s _ s1 Hk Hr) in Hpath
        by discriminate. discriminate.
    + by destruct (resource_effects rt _ _ _ _ _ Hr) as (? & _).
Qed.

End PathBuilder.

(** A pod named ["a/B"] in the namespace ["Team A"], read by a fresh
    client: the space and the separator are escaped, and the whole path is
    in lower case. *)
Lemma specUriPath_builds_segments_witness :
  fst (fst (specUriPath Demo.runtime Lab.spacedPod ActionRead Demo.start))
  = Resolved "https://kube.example.com:6443/api/v1/namespaces/team%20a/pods/a%2fb"
  /\ exists namespaceSegment nameSegment path,
      PercentEncoded "Team A" namespaceSegment
      /\ PercentEncoded "a/B" nameSegment
      /\ fst (fst (specUriPath Demo.runtime Lab.spacedPod ActionRead Demo.start))
         = Resolved path
      /\ LowerCaseOf
           ("https://Kube.example.com:6443/api/v1/namespaces/" +:+ namespaceSegment
            +:+ "/pods/" +:+ nameSegment)
           path
      /\ lowerCased path = true.
Proof.
  split; [vm_compute; reflexivity |].
  exact (specUriPath_builds_segments Demo.runtime Lab.spacedPod ActionRead
           Demo.start Demo.podResource
           (snd (resource Demo.runtime (Some "v1") (Some "Pod") Demo.start))
           ltac:(reflexivity) ltac:(vm_compute; reflexivity)
           (fun _ => ltac:(reflexivity))).
Defined.

(** What the two relations say of that pod. *)
Example percent_encoding_of_the_pod :
  PercentEncoded "Team A" "Team%20A"
  /\ PercentEncoded "a/B" "a%2FB"
  /\ LowerCaseOf "https://Kube.example.com:6443/api/v1/namespaces/Team%20A/pods/a%2FB"
       "https://kube.example.com:6443/api/v1/namespaces/team%20a/pods/a%2fb".
Proof.
  split; [|split].
  - repeat first [ apply pe_end
                 | apply pe_kept; [reflexivity |]
                 | apply pe_escaped; [reflexivity | reflexivity | reflexivity |] ].
  - repeat first [ apply pe_end
                 | apply pe_kept; [reflexivity |]
                 | apply pe_escaped; [reflexivity | reflexivity | reflexivity |] ].
  - exact (toLowerCase_LowerCaseOf
             "https://Kube.example.com:6443/api/v1/namespaces/Team%20A/pods/a%2FB").
Qed.

(** A pod given with neither apiVersion nor namespace, created and listed. *)
Lemma specUriPath_defaults_witness :
  (obj_apiVersion (snd (fst (specUriPath Demo.runtime Demo.webPod ActionCreate Demo.start)))
   = Some "v1"
   /\ specNamespace (snd (fst (specUriPath Demo.runtime Demo.webPod ActionCreate Demo.start)))
      = Some "default")
  /\ fst (fst (specUriPath Demo.runtime Demo.webPod ActionList Demo.start))
     = Resolved "https://kube.example.com:6443/api/v1/pods".
Proof.
  pose proof (specUriPath_defaults Demo.runtime Demo.webPod ActionCreate Demo.start
                (Demo.resourceOf (Demo.entry "Pod" "pods" true))
                (snd (resource Demo.runtime (Some "v1") (Some "Pod") Demo.start))
                ltac:(reflexivity) ltac:(vm_compute; reflexivity))
    as (Hv & Hn & _).
  pose proof (specUriPath_defaults Demo.runtime Demo.webPod ActionList Demo.start
                (Demo.resourceOf (Demo.entry "Pod" "pods" true))
                (snd (resource Demo.runtime (Some "v1") (Some "Pod") Demo.start))
                ltac:(reflexivity) ltac:(vm_compute; reflexivity))
    as (_ & _ & Hl).
  split; [split|].
  - exact (proj2 (proj2 (Hv ltac:(reflexivity)))).
  - exact (Hn ltac:(reflexivity) ltac:(reflexivity) ltac:(reflexivity)).
  - exact (proj1 (Hl ltac:(reflexivity))).
Defined.

(** Creating that pod leaves the caller's object with ["v1"] and the default
    namespace, and with its kind and name as given. *)
Lemma path_build_mutates_spec_witness :
  snd (fst (perform Demo.runtime
              (CallCreate (Some Demo.webPod) None None None None) Demo.start))
  = Some (Demo.object (Some "v1") (Some "Pod") (Some "default") (Some "web")).
Proof.
  exact (proj1 (path_build_mutates_spec Demo.runtime
                  (CallCreate (Some Demo.webPod) None None None None)
                  Demo.webPod Demo.start
                  "https://kube.example.com:6443/api/v1/namespaces/default/pods"
                  (Demo.object (Some "v1") (Some "Pod") (Some "default") (Some "web"))
                  (snd (specUriPath Demo.runtime Demo.webPod ActionCreate Demo.start))
                  ltac:(reflexivity) ltac:(reflexivity)
                  ltac:(vm_compute; reflexivity))).
Defined.

(** ** Claims on the resolver, on errors and on headers *)

Lemma generateHeaders_supplied (this : KubernetesObjectApi)
  (supplied : gmap string string) (action : option string) (k v : string) :
  supplied !! k = Some v -> generateHeaders this supplied action !! k = Some v.
Proof. intros H. unfold generateHeaders. by apply lookup_union_Some_l. Qed.

Lemma generateHeaders_accept (this : KubernetesObjectApi)
  (supplied : gmap string string) (action : option string) :
  generateHeaders this supplied action !! "accept"
  = Some (default "application/json" (supplied !! "accept")).
Proof.
  destruct (supplied !! "accept") as [v|] eqn:H; simpl.
  - by apply generateHeaders_supplied.
  - unfold generateHeaders. rewrite (lookup_union_r _ _ _ H).
    destruct (String.eqb _ _).
    + rewrite lookup_insert_ne by discriminate. apply lookup_insert_eq.
    + apply lookup_insert_eq.
Qed.

Lemma generateHeaders_content_type (this : KubernetesObjectApi)
  (supplied : gmap string string) :
  generateHeaders this supplied (Some "PATCH") !! "content-type"
  = Some (default KubernetesPatchStrategies.StrategicMergePatch
            (supplied !! "content-type")).
Proof.
  destruct (supplied !! "content-type") as [v|] eqn:H; simpl.
  - by apply generateHeaders_supplied.
  - unfold generateHeaders. rewrite (lookup_union_r _ _ _ H). simpl.
    apply lookup_insert_eq.
Qed.

Section Operations.

Variable rt : Runtime.

Lemma specUriPath_state (spec : KubernetesObject) (action : KubernetesApiAction)
  (s : ApiState) (o : Outcome (option V1APIResource)) (s' : ApiState) :
  JS.truthy (obj_kind spec) = true ->
  resource rt (Some (effectiveApiVersion spec)) (obj_kind spec) s = (o, s') ->
  snd (specUriPath rt spec action s) = s'.
Proof.
  intros Hk Hr. destruct o as [[r|]|e|].
  - by rewrite (specUriPath_resolved rt spec action s r s' Hk Hr).
  - by rewrite (specUriPath_unresolved rt spec action s _ s' Hk Hr).
  - by rewrite (specUriPath_unresolved rt spec action s _ s' Hk Hr).
  - by rewrite (specUriPath_unresolved rt spec action s _ s' Hk Hr).
Qed.

(** The path builder hands the transport nothing but, at most once, the
    discovery request of the spec's apiVersion. *)
Lemma specUriPath_requests (spec : KubernetesObject) (action : KubernetesApiAction)
  (s : ApiState) :
  let s' := snd (specUriPath rt spec action s) in
  requests s' = requests s
  \/ requests s'
     = requests s ++ [discoveryRequest (client s) (effectiveApiVersion spec)].
Proof.
  simpl. destruct (JS.truthy (obj_kind spec)) eqn:Hk.
  - destruct (resource rt (Some (effectiveApiVersion spec)) (obj_kind spec) s)
      as [o s1] eqn:Hr.
    rewrite (specUriPath_state spec action s o s1 Hk Hr).
    destruct (resource_effects rt _ _ _ _ _ Hr)
      as (_ & _ & _ & _ & _ & _ & [H|(v & [= <-] & H)]); auto.
  - rewrite (specUriPath_no_kind rt _ _ _ Hk). by left.
Qed.

(** C2, where the code departs from it.  The cache is an object literal,
    and the name of a property every object inherits (["constructor"],
    ["toString"], ["__proto__"], ...) is looked up in it like a
    group-version that was stored.  For a spec whose apiVersion is such a
    name, on a client whose cache holds nothing under it, the cache is
    missed and yet nothing is fetched: [resource] is rejected with a
    [TypeError] for every kind, and so is the operation, with the state as
    it was and no request handed to the transport. *)
Theorem inherited_name_never_fetches (c : Call) (spec : KubernetesObject)
  (s : ApiState) :
  pathInput c = Some spec ->
  JS.truthy (obj_kind spec) = true ->
  let apiVersion := effectiveApiVersion spec in
  let e := TypeError "Cannot read properties of undefined (reading 'find')" in
  isInherited apiVersion = true ->
  apiVersionResourceCache (client s) !! apiVersion = None ->
  (forall kind, resource rt (Some apiVersion) (Some kind) s = (Rejected e, s))
  /\ fst (fst (perform rt c s)) = Rejected e
  /\ snd (perform rt c s) = s
  /\ requests (snd (perform rt c s)) = requests s.
Proof.
  intros Hin Hk apiVersion e Hname Hcache.
  assert (forall kind, resource rt (Some apiVersion) (Some kind) s = (Rejected e, s))
    as Hr.
  { intros kind. apply resource_throws.
    by rewrite (searchCache_absent _ _ _ Hcache), Hname. }
  split; [exact Hr |].
  destruct (obj_kind spec) as [kind|] eqn:Hkind; [|discriminate].
  pose proof (Hr kind) as Hres. rewrite <- Hkind in Hres at 1.
  rewrite (perform_path rt c spec s Hin). unfold performFrom.
  rewrite <- Hkind in Hk.
  rewrite (specUriPath_unresolved rt spec _ s _ s Hk Hres) by discriminate.
  done.
Qed.

(** C5.  The path build of an operation fails with the kind-not-set error
    when the kind is empty, with the name-not-set error when the action is
    a single-object one and the name is empty, and with the
    unrecognized-resource error when the resolver does not find the kind.
    Whenever the path build fails, the operation is rejected with that
    error in the state the path build left: the transport was handed at
    most the discovery request, and never the request of the operation. *)
Theorem path_errors_fail_fast (c : Call) (spec : KubernetesObject) (s : ApiState) :
  pathInput c = Some spec ->
  let action := callAction c in
  let apiVersion := effectiveApiVersion spec in
  (JS.truthy (obj_kind spec) = false ->
   specUriPath rt spec action s = (Rejected kindNotSet, spec, s)
   /\ InvalidSpec kindNotSet)
  /\ (forall r s',
        JS.truthy (obj_kind spec) = true ->
        resource rt (Some apiVersion) (obj_kind spec) s = (Resolved (Some r), s') ->
        isSingleObject action = true ->
        JS.truthy (specName spec) = false ->
        fst (fst (specUriPath rt spec action s)) = Rejected nameNotSet
        /\ snd (specUriPath rt spec action s) = s'
        /\ InvalidSpec nameNotSet)
  /\ (forall s',
        JS.truthy (obj_kind spec) = true ->
        resource rt (Some apiVersion) (obj_kind spec) s = (Resolved None, s') ->
        exists e,
          fst (fst (specUriPath rt spec action s)) = Rejected e
          /\ snd (specUriPath rt spec action s) = s'
          /\ UnknownResource apiVersion (default "" (obj_kind spec)) e)
  /\ (forall e spec1 s1,
        specUriPath rt spec action s = (Rejected e, spec1, s1) ->
        perform rt c s
        = (Rejected e, (if hasCallerSpec c then Some spec1 else None), s1)
        /\ (requests s1 = requests s
            \/ requests s1 = requests s ++ [discoveryRequest (client s) apiVersion])).
Proof.
  intros Hin action apiVersion. split; [|split; [|split]].
  - intros Hk. split; [by apply specUriPath_no_kind | by left].
  - intros r s' Hk Hr Hsingle Hname.
    rewrite (specUriPath_resolved rt spec action s r s' Hk Hr).
    rewrite Hsingle, Hname. repeat split. by right.
  - intros s' Hk Hr. eexists. split; [|split].
    + by rewrite (specUriPath_unresolved rt spec action s _ s' Hk Hr).
    + by rewrite (specUriPath_unresolved rt spec action s _ s' Hk Hr).
    + reflexivity.
  - intros e spec1 s1 Hfail. split.
    + rewrite (perform_path rt c spec s Hin). unfold performFrom.
      fold action. by rewrite Hfail.
    + pose proof (specUriPath_requests spec action s) as Hreq.
      simpl in Hreq. by rewrite Hfail in Hreq.
Qed.

(** C7.  The request of every operation carries the headers
    [generateHeaders] makes: [accept] is ["application/json"] unless the
    caller supplies one, for patch [content-type] is
    ["application/strategic-merge-patch+json"] unless the caller supplies
    one, and every header the caller supplies is in the request with the
    caller's value. *)
Theorem request_headers_default (c : Call) (spec : KubernetesObject) (s : ApiState)
  (path : string) (spec1 : KubernetesObject) (s1 : ApiState) :
  pathInput c = Some spec ->
  specUriPath rt spec (callAction c) s = (Resolved path, spec1, s1) ->
  let supplied := headersOf (callOptions c) in
  exists req,
    requests (snd (perform rt c s)) = requests s1 ++ [req]
    /\ uri req = path
    /\ headers req !! "accept"
       = Some (default "application/json" (supplied !! "accept"))
    /\ (callAction c = ActionPatch ->
        headers req !! "content-type"
        = Some (default "application/strategic-merge-patch+json"
                  (supplied !! "content-type")))
    /\ (forall k v, supplied !! k = Some v -> headers req !! k = Some v).
Proof.
  intros Hin Hpath supplied.
  exists (callRequest rt c (client s1) path spec1).
  rewrite (perform_path rt c spec s Hin). unfold performFrom.
  rewrite Hpath. simpl.
  pose proof (requestPromise_state rt (callRequest rt c (client s1) path spec1)
                (declaredType c) s1) as Hs.
  destruct (requestPromise _ _ _ _) as [o s2]. simpl in *. subst s2.
  repeat split.
  - apply generateHeaders_accept.
  - intros Ha. destruct c; try discriminate. apply generateHeaders_content_type.
  - intros k v Hk. by apply generateHeaders_supplied.
Qed.

End Operations.

(** ** Claims on decoding, failures, patch and watch *)

Lemma getSerializationType_strings (apiVersion kind : string) :
  getSerializationType (Some (JStr apiVersion)) (Some (JStr kind))
  = Ok (watchType apiVersion kind).
Proof. unfold getSerializationType, watchType. simpl. by rewrite append_assoc. Qed.


(** The type read off a body that is an object with string [apiVersion] and
    [kind]. *)
Lemma bodyType_object (fields : list (string * json)) (apiVersion kind : string) :
  assoc "apiVersion" fields = Some (JStr apiVersion) ->
  assoc "kind" fields = Some (JStr kind) ->
  bodyType (Some (JObj fields)) = Ok (watchType apiVersion kind).
Proof.
  intros Ha Hk. unfold bodyType. simpl. rewrite Ha, Hk.
  apply getSerializationType_strings.
Qed.

Lemma setIfDefined_lookup (k : string) (v : option any) (m : gmap string any) :
  m !! k = None -> setIfDefined k v m !! k = v.
Proof.
  intros H. destruct v as [x|]; simpl; [apply lookup_insert_eq | exact H].
Qed.

Lemma setIfDefined_other (k k' : string) (v : option any) (m : gmap string any) :
  k <> k' -> setIfDefined k v m !! k' = m !! k'.
Proof.
  intros H. destruct v as [x|]; simpl; [by apply lookup_insert_ne | reflexivity].
Qed.

Section Responses.

Variable rt : Runtime.

Lemma perform_settles (c : Call) (spec : KubernetesObject) (s : ApiState)
  (path : string) (spec1 : KubernetesObject) (s1 : ApiState) :
  pathInput c = Some spec ->
  specUriPath rt spec (callAction c) s = (Resolved path, spec1, s1) ->
  let req := callRequest rt c (client s1) path spec1 in
  fst (fst (perform rt c s))
  = match transport rt (requests s1) req with
    | NetFailure e => Rejected e
    | NetResponse response body =>
        match decodeType c body with
        | Ok t => settle rt response (deserialize rt body t)
        | Throw _ => Pending
        end
    end
  /\ snd (perform rt c s) = record_request req s1.
Proof.
  intros Hin Hpath req.
  rewrite (perform_path rt c spec s Hin). unfold performFrom.
  rewrite Hpath. simpl. fold req.
  pose proof (requestPromise_state rt req (declaredType c) s1) as Hs.
  destruct (transport rt (requests s1) req) as [e|response body] eqn:Ht.
  - by rewrite (requestPromise_failure rt _ _ _ _ Ht).
  - unfold decodeType. destruct (declaredType c) as [t|].
    + by rewrite (requestPromise_typed rt _ _ _ _ _ Ht).
    + by rewrite (requestPromise_untyped rt _ _ _ _ Ht).
Qed.

(** C3, as amended.  When the request of an operation is answered, the
    body is deserialized with the type read off the answer's own
    apiVersion and kind for create, read, replace, patch and list, and with
    ["V1Status"], whatever the answer is, for delete; the operation is
    resolved with the deserialized body on a 2xx status and rejected with
    it otherwise. *)
Theorem response_decoding (c : Call) (spec : KubernetesObject) (s : ApiState)
  (path : string) (spec1 : KubernetesObject) (s1 : ApiState)
  (response : IncomingMessage) (body : any) :
  pathInput c = Some spec ->
  specUriPath rt spec (callAction c) s = (Resolved path, spec1, s1) ->
  transport rt (requests s1) (callRequest rt c (client s1) path spec1)
  = NetResponse response body ->
  (callAction c = ActionDelete ->
   fst (fst (perform rt c s)) = settle rt response (deserialize rt body "V1Status"))
  /\ (callAction c <> ActionDelete ->
      forall t, bodyType body = Ok t ->
                fst (fst (perform rt c s))
                = settle rt response (deserialize rt body t)).
Proof.
  intros Hin Hpath Ht.
  destruct (perform_settles c spec s path spec1 s1 Hin Hpath) as [-> _].
  rewrite Ht. unfold decodeType. split.
  - intros Ha. by destruct c.
  - intros Ha t Hb. destruct c; simpl; try by rewrite Hb. by destruct Ha.
Qed.

(** C6, as amended.  A failure of the transport on the request of the
    operation itself rejects the operation with that very error, and an
    answer to it with a status that is not 2xx, whose body can be given a
    type, rejects it with an [HttpError] that carries the status code and
    the deserialized body.  A failure of the transport on the discovery
    request of the path build rejects the operation with that error, its
    message prefixed with ["Failed to fetch resource metadata for
    <apiVersion>/<kind>: "] when it is an [Error]; so does an answer to it
    whose status is not 2xx, as an [HttpError] with the status code and the
    deserialized body.  (The path build makes the discovery request when
    the search of the cache neither finds the kind nor throws.) *)
Theorem failures_surface (c : Call) (spec : KubernetesObject) (kind : string)
  (s : ApiState) :
  pathInput c = Some spec ->
  obj_kind spec = Some kind ->
  kind <> "" ->
  let apiVersion := effectiveApiVersion spec in
  let fetch := discoveryRequest (client s) apiVersion in
  (forall path spec1 s1,
     specUriPath rt spec (callAction c) s = (Resolved path, spec1, s1) ->
     let req := callRequest rt c (client s1) path spec1 in
     (forall e, transport rt (requests s1) req = NetFailure e ->
                fst (fst (perform rt c s)) = Rejected e)
     /\ (forall response body t,
           transport rt (requests s1) req = NetResponse response body ->
           is2xx (statusCode response) = false ->
           decodeType c body = Ok t ->
           fst (fst (perform rt c s))
           = Rejected (HttpError (httpErrorMessage rt) response
                         (deserialize rt body t) (statusCode response))))
  /\ (searchCache (client s) apiVersion kind = Ok None ->
      (forall e, transport rt (requests s) fetch = NetFailure e ->
                 fst (fst (perform rt c s))
                 = Rejected
                     (if isError e
                      then setMessage
                             ("Failed to fetch resource metadata for "
                              +:+ apiVersion +:+ "/" +:+ kind +:+ ": "
                              +:+ messageOf e) e
                      else e))
      /\ (forall response body,
            transport rt (requests s) fetch = NetResponse response body ->
            is2xx (statusCode response) = false ->
            fst (fst (perform rt c s))
            = Rejected
                (HttpError
                   ("Failed to fetch resource metadata for "
                    +:+ apiVersion +:+ "/" +:+ kind +:+ ": " +:+ httpErrorMessage rt)
                   response (deserialize rt body "V1APIResourceList")
                   (statusCode response)))).
Proof.
  intros Hin Hkind Hne apiVersion fetch.
  assert (JS.truthy (obj_kind spec) = true) as Hk.
  { rewrite Hkind. by destruct kind. }
  split.
  - intros path spec1 s1 Hpath req.
    destruct (perform_settles c spec s path spec1 s1 Hin Hpath) as [-> _].
    fold req. split.
    + by intros e ->.
    + intros response body t -> H2 ->. unfold settle. by rewrite H2.
  - intros Hmiss.
    pose proof (resource_miss rt apiVersion kind s Hmiss) as Hr. simpl in Hr.
    fold fetch in Hr. rewrite <- Hkind in Hr at 1.
    rewrite (perform_path rt c spec s Hin). unfold performFrom. split.
    + intros e Ht. rewrite Ht in Hr.
      by rewrite (specUriPath_unresolved rt spec _ s _ _ Hk Hr).
    + intros response body Ht H2. rewrite Ht, H2 in Hr.
      by rewrite (specUriPath_unresolved rt spec _ s _ _ Hk Hr).
Qed.

(** C8, as amended.  A patch call attaches a supplied force flag to its
    request as the query parameter [force], whatever the content type of
    the request; without the flag the request has no such parameter. *)
Theorem patch_passes_force (spec : KubernetesObject)
  (pretty dryRun fieldManager : option string) (force : option bool)
  (options : option CallOptions) (s : ApiState)
  (path : string) (spec1 : KubernetesObject) (s1 : ApiState) :
  let c := CallPatch (Some spec) pretty dryRun fieldManager force options in
  specUriPath rt spec ActionPatch s = (Resolved path, spec1, s1) ->
  exists req,
    requests (snd (perform rt c s)) = requests s1 ++ [req]
    /\ method req = "PATCH"
    /\ headers req !! "content-type"
       = Some (default "application/strategic-merge-patch+json"
                 (headersOf options !! "content-type"))
    /\ qs req !! "force"
       = (fun b => serialize rt (Some (JBool b)) "boolean") <$> force.
Proof.
  intros c Hpath.
  exists (callRequest rt c (client s1) path spec1).
  destruct (perform_settles c spec s path spec1 s1 eq_refl Hpath) as [_ ->].
  repeat split.
  - apply generateHeaders_content_type.
  - simpl. rewrite setIfDefined_lookup; [by destruct force|].
    rewrite !setIfDefined_other by discriminate. apply lookup_empty.
Qed.

(** C9, as amended.  Every event of a watch is handed to the caller with
    its object deserialized with one type, that of the watched resource:
    the version of the apiVersion given to [watch], its first letter in
    upper case, followed by the kind given to [watch].  The events keep
    their phases and their order. *)
Theorem watch_decodes_with_watched_type (apiVersion kind : string)
  (namespace : option string) (options : option WatchOptions) (s : ApiState)
  (w : Watch) (path : string) (spec1 : KubernetesObject) (s1 : ApiState)
  (resourcePath : string) (events : list WatchCall) :
  watcher (client s) = Some w ->
  specUriPath rt (headerOf apiVersion kind namespace) ActionList s
  = (Resolved path, spec1, s1) ->
  urlPathname rt path = Ok resourcePath ->
  watch_session w resourcePath
    (default {| allowWatchBookmarks := None; resourceVersion := None |} options)
  = Ok events ->
  let type := watchType apiVersion kind in
  watch rt apiVersion kind namespace options s
  = (Resolved (map (cb rt type) events), s1)
  /\ forall i event,
      events !! i = Some event ->
      exists call,
        map (cb rt type) events !! i = Some call
        /\ wc_phase call = wc_phase event
        /\ wc_apiObj call = deserialize rt (wc_apiObj event) type
        /\ wo_object <$> wc_watchObj call
           = (fun _ => deserialize rt (wc_apiObj event) type) <$> wc_watchObj event.
Proof.
  intros Hw Hpath Hurl Hsession type. split.
  - unfold watch. rewrite Hw, Hpath. simpl.
    rewrite Hurl, Hsession. subst type. unfold watchType.
    by rewrite append_assoc.
  - intros i event Hi. exists (cb rt type event). split.
    + by rewrite list_lookup_fmap, Hi.
    + repeat split. simpl. by destruct (wc_watchObj event).
Qed.

End Responses.

(** ** The claims on the small cluster *)

(** Reading a pod whose apiVersion is ["constructor"] with a fresh client:
    the read is rejected with the [TypeError], and the transport has been
    handed nothing. *)
Lemma inherited_name_never_fetches_witness :
  let c := CallRead (Some Lab.constructorPod) None None None None in
  resource Demo.runtime (Some "constructor") (Some "Pod") Demo.start
  = (Rejected (TypeError "Cannot read properties of undefined (reading 'find')"),
     Demo.start)
  /\ fst (fst (perform Demo.runtime c Demo.start))
     = Rejected (TypeError "Cannot read properties of undefined (reading 'find')")
  /\ requests (snd (perform Demo.runtime c Demo.start)) = [].
Proof.
  intros c.
  destruct (inherited_name_never_fetches Demo.runtime c Lab.constructorPod
              Demo.start ltac:(reflexivity) ltac:(reflexivity) ltac:(reflexivity)
              ltac:(reflexivity)) as (Hr & Ho & _ & Hreq).
  split; [exact (Hr "Pod") |]. split; [exact Ho | exact Hreq].
Defined.

(** Deleting a pod without a name fails with the name-not-set error after
    the discovery request alone. *)
Lemma path_errors_fail_fast_witness :
  let c := CallDelete (Some Demo.nameless) None None None None None None None in
  fst (fst (perform Demo.runtime c Demo.start)) = Rejected nameNotSet
  /\ requests (snd (perform Demo.runtime c Demo.start))
     = [discoveryRequest Demo.api "v1"].
Proof.
  intros c.
  destruct (path_errors_fail_fast Demo.runtime c Demo.nameless Demo.start
              ltac:(reflexivity)) as (_ & _ & _ & Hfast).
  destruct (Hfast nameNotSet
              (Demo.object (Some "v1") (Some "Pod") (Some "default") None)
              Demo.warm ltac:(vm_compute; reflexivity)) as [Hp _].
  rewrite Hp. split; [reflexivity | vm_compute; reflexivity].
Defined.

(** A patch with a merge-patch content type keeps the default [accept] and
    carries the caller's content type. *)
Lemma request_headers_default_witness :
  exists req,
    requests (snd (perform Demo.runtime
                     (CallPatch (Some Demo.webPod) None None None None Demo.mergePatch)
                     Demo.start))
    = requests Demo.warm ++ [req]
    /\ headers req !! "accept" = Some "application/json"
    /\ headers req !! "content-type" = Some "application/merge-patch+json".
Proof.
  destruct (request_headers_default Demo.runtime
              (CallPatch (Some Demo.webPod) None None None None Demo.mergePatch)
              Demo.webPod Demo.start Demo.webPodPath Demo.webPodDefaulted Demo.warm
              ltac:(reflexivity) ltac:(vm_compute; reflexivity))
    as (req & Hreq & _ & Haccept & Htype & _).
  exists req. split; [exact Hreq|]. split; [exact Haccept|].
  exact (Htype ltac:(reflexivity)).
Defined.

(** Creating the pod is answered with a conflict: the body is deserialized
    with the type of the answer, [V1Status].  Deleting it is answered with
    the pod, deserialized as a [V1Status] all the same. *)
Lemma response_decoding_witness :
  fst (fst (perform Demo.runtime
              (CallCreate (Some Demo.webPod) None None None None) Demo.start))
  = Rejected (HttpError "HTTP request failed"
                {| statusCode := Some 409; statusMessage := None |}
                (Demo.decode (Some Demo.conflict) "V1Status") (Some 409))
  /\ fst (fst (perform Demo.runtime
                 (CallDelete (Some Demo.webPod) None None None None None None None)
                 Demo.start))
     = Resolved {| rr_body := Demo.decode (Some Demo.pod) "V1Status";
                   rr_response := {| statusCode := Some 200; statusMessage := None |} |}.
Proof.
  split.
  - destruct (response_decoding Demo.runtime
                (CallCreate (Some Demo.webPod) None None None None)
                Demo.webPod Demo.start Demo.podsPath Demo.webPodDefaulted Demo.warm
                {| statusCode := Some 409; statusMessage := None |}
                (Some Demo.conflict)
                ltac:(reflexivity) ltac:(vm_compute; reflexivity)
                ltac:(vm_compute; reflexivity)) as [_ Hother].
    apply (Hother ltac:(discriminate) "V1Status"). reflexivity.
  - destruct (response_decoding Demo.runtime
                (CallDelete (Some Demo.webPod) None None None None None None None)
                Demo.webPod Demo.start Demo.webPodPath Demo.webPodDefaulted Demo.warm
                {| statusCode := Some 200; statusMessage := None |}
                (Some Demo.pod)
                ltac:(reflexivity) ltac:(vm_compute; reflexivity)
                ltac:(vm_compute; reflexivity)) as [Hdelete _].
    apply Hdelete. reflexivity.
Defined.

(** C3 as stated fails: the answer to a delete is the pod, whose own type
    is [V1Pod], and the body handed back is the pod deserialized as a
    [V1Status], without its [spec]. *)
Lemma response_decoding_counterexample :
  ~ (forall (rt : Runtime) (c : Call) (spec : KubernetesObject) (s : ApiState)
       (path : string) (spec1 : KubernetesObject) (s1 : ApiState)
       (response : IncomingMessage) (body : any) (t : string)
       (result : ResponseResult),
        pathInput c = Some spec ->
        specUriPath rt spec (callAction c) s = (Resolved path, spec1, s1) ->
        transport rt (requests s1) (callRequest rt c (client s1) path spec1)
        = NetResponse response body ->
        bodyType body = Ok t ->
        fst (fst (perform rt c s)) = Resolved result ->
        rr_body result = deserialize rt body t).
Proof.
  intros H.
  pose proof (H Demo.runtime
                (CallDelete (Some Demo.webPod) None None None None None None None)
                Demo.webPod Demo.start Demo.webPodPath Demo.webPodDefaulted Demo.warm
                {| statusCode := Some 200; statusMessage := None |}
                (Some Demo.pod) "V1Pod"
                {| rr_body := Demo.decode (Some Demo.pod) "V1Status";
                   rr_response := {| statusCode := Some 200; statusMessage := None |} |}
                ltac:(reflexivity) ltac:(vm_compute; reflexivity)
                ltac:(vm_compute; reflexivity) ltac:(reflexivity)
                ltac:(vm_compute; reflexivity)) as Hbody.
  vm_compute in Hbody. discriminate Hbody.
Qed.

(** The conflict met by a create is an [HttpError] with the status code and
    the deserialized status; with no server, the failure of the discovery
    request comes back with its message prefixed. *)
Lemma failures_surface_witness :
  fst (fst (perform Demo.runtime
              (CallCreate (Some Demo.webPod) None None None None) Demo.start))
  = Rejected (HttpError "HTTP request failed"
                {| statusCode := Some 409; statusMessage := None |}
                (Demo.decode (Some Demo.conflict) "V1Status") (Some 409))
  /\ fst (fst (perform Demo.offline
                 (CallCreate (Some Demo.webPod) None None None None) Demo.start))
     = Rejected
         (Error "Failed to fetch resource metadata for v1/Pod: connect ECONNREFUSED")
  /\ fst (fst (perform Demo.flaky
                 (CallCreate (Some Demo.webPod) None None None None) Demo.start))
     = Rejected (Error "socket hang up").
Proof.
  split; [|split]; cycle 2.
  - destruct (failures_surface Demo.flaky
                (CallCreate (Some Demo.webPod) None None None None)
                Demo.webPod "Pod" Demo.start
                ltac:(reflexivity) ltac:(reflexivity) ltac:(discriminate))
      as [Hown _].
    destruct (Hown Demo.podsPath Demo.webPodDefaulted Demo.warm
                ltac:(vm_compute; reflexivity)) as [Hfail _].
    apply Hfail. reflexivity.
  - destruct (failures_surface Demo.runtime
                (CallCreate (Some Demo.webPod) None None None None)
                Demo.webPod "Pod" Demo.start
                ltac:(reflexivity) ltac:(reflexivity) ltac:(discriminate))
      as [Hown _].
    destruct (Hown Demo.podsPath Demo.webPodDefaulted Demo.warm
                ltac:(vm_compute; reflexivity)) as [_ Hstatus].
    apply (Hstatus {| statusCode := Some 409; statusMessage := None |}
             (Some Demo.conflict) "V1Status"); vm_compute; reflexivity.
  - destruct (failures_surface Demo.offline
                (CallCreate (Some Demo.webPod) None None None None)
                Demo.webPod "Pod" Demo.start
                ltac:(reflexivity) ltac:(reflexivity) ltac:(discriminate))
      as [_ Hfetch].
    assert (searchCache (client Demo.start) "v1" "Pod" = Ok None) as Hcold
      by reflexivity.
    destruct (Hfetch Hcold) as [Hfail _].
    apply (Hfail (Error "connect ECONNREFUSED")). reflexivity.
Defined.

(** C6 as stated fails: with no server every request fails with the same
    connection error, and a create is rejected with another message than
    that error's. *)
Lemma failures_surface_counterexample :
  ~ (forall (rt : Runtime) (c : Call) (s : ApiState) (e : JsError),
        (forall history r, transport rt history r = NetFailure e) ->
        requests (snd (perform rt c s)) <> requests s ->
        fst (fst (perform rt c s)) = Rejected e).
Proof.
  intros H.
  pose proof (H Demo.offline (CallCreate (Some Demo.webPod) None None None None)
                Demo.start (Error "connect ECONNREFUSED")
                (fun _ _ => eq_refl)
                ltac:(vm_compute; discriminate)) as Hsame.
  vm_compute in Hsame. discriminate Hsame.
Qed.

(** A patch with the default strategic-merge content type and the force
    flag set sends [force] as a query parameter. *)
Lemma patch_passes_force_witness :
  exists req,
    requests (snd (perform Demo.runtime
                     (CallPatch (Some Demo.webPod) None None None (Some true) None)
                     Demo.start))
    = requests Demo.warm ++ [req]
    /\ headers req !! "content-type" = Some "application/strategic-merge-patch+json"
    /\ qs req !! "force" = Some (Some (JBool true)).
Proof.
  destruct (patch_passes_force Demo.runtime Demo.webPod None None None (Some true)
              None Demo.start Demo.webPodPath Demo.webPodDefaulted Demo.warm
              ltac:(vm_compute; reflexivity))
    as (req & Hreq & _ & Htype & Hforce).
  exists req. split; [exact Hreq|]. split; [exact Htype | exact Hforce].
Defined.

(** C8 as stated fails: the request of that patch has a non-apply content
    type and carries the force flag. *)
Lemma patch_passes_force_counterexample :
  ~ (forall (rt : Runtime) (spec : KubernetesObject)
       (pretty dryRun fieldManager : option string) (force : option bool)
       (options : option CallOptions) (s : ApiState) (req : RequestOptions),
        last (requests
                (snd (perform rt
                        (CallPatch (Some spec) pretty dryRun fieldManager force options)
                        s)))
        = Some req ->
        method req = "PATCH" ->
        (headers req !! "content-type" = Some KubernetesPatchStrategies.JsonPatch
         \/ headers req !! "content-type" = Some KubernetesPatchStrategies.MergePatch
         \/ headers req !! "content-type"
            = Some KubernetesPatchStrategies.StrategicMergePatch) ->
        qs req !! "force" = None).
Proof.
  intros H.
  pose (req := callRequest Demo.runtime
                 (CallPatch (Some Demo.webPod) None None None (Some true) None)
                 Demo.api Demo.webPodPath Demo.webPodDefaulted).
  assert (headers req !! "content-type"
          = Some KubernetesPatchStrategies.StrategicMergePatch) as Htype
    by (vm_compute; reflexivity).
  pose proof (H Demo.runtime Demo.webPod None None None (Some true) None Demo.start
                req ltac:(vm_compute; reflexivity) ltac:(reflexivity)
                (or_intror (or_intror Htype))) as Hforce.
  vm_compute in Hforce. discriminate Hforce.
Qed.

(** Watching pods: both events of the stream reach the caller deserialized
    as [V1Pod]. *)
Lemma watch_decodes_with_watched_type_witness :
  fst (watch Demo.runtime "v1" "Pod" None None Demo.start)
  = Resolved (map (cb Demo.runtime "V1Pod") Demo.stream).
Proof.
  destruct (watch_decodes_with_watched_type Demo.runtime "v1" "Pod" None None
              Demo.start Demo.session
              "https://kube.example.com:6443/api/v1/pods"
              (Demo.object (Some "v1") (Some "Pod") None None) Demo.warm
              "/api/v1/pods" Demo.stream
              ltac:(reflexivity) ltac:(vm_compute; reflexivity)
              ltac:(reflexivity) ltac:(reflexivity)) as [Hwatch _].
  rewrite Hwatch. reflexivity.
Defined.

(** C9 as stated fails: the error event of the stream carries a [Status],
    whose own type is [V1Status], and the caller gets it deserialized as a
    [V1Pod], without its reason and code. *)
Lemma watch_decodes_with_watched_type_counterexample :
  ~ (forall (rt : Runtime) (apiVersion kind : string) (namespace : option string)
       (options : option WatchOptions) (s : ApiState) (w : Watch)
       (resourcePath : string) (events calls : list WatchCall) (s' : ApiState)
       (i : nat) (event call : WatchCall) (t : string),
        watcher (client s) = Some w ->
        watch_session w resourcePath
          (default {| allowWatchBookmarks := None; resourceVersion := None |} options)
        = Ok events ->
        watch rt apiVersion kind namespace options s = (Resolved calls, s') ->
        events !! i = Some event ->
        calls !! i = Some call ->
        bodyType (wc_apiObj event) = Ok t ->
        wc_apiObj call = deserialize rt (wc_apiObj event) t).
Proof.
  intros H.
  pose proof (H Demo.runtime "v1" "Pod" None None Demo.start Demo.session
                "/api/v1/pods" Demo.stream
                (map (cb Demo.runtime "V1Pod") Demo.stream) Demo.warm 1%nat
                {| wc_phase := ERROR; wc_apiObj := Some Demo.expired;
                   wc_watchObj :=
                     Some {| wo_type := ERROR; wo_object := Some Demo.expired |} |}
                (cb Demo.runtime "V1Pod"
                   {| wc_phase := ERROR; wc_apiObj := Some Demo.expired;
                      wc_watchObj :=
                        Some {| wo_type := ERROR; wo_object := Some Demo.expired |} |})
                "V1Status"
                ltac:(reflexivity) ltac:(reflexivity)
                ltac:(vm_compute; reflexivity) ltac:(reflexivity)
                ltac:(reflexivity) ltac:(reflexivity)) as Hobj.
  vm_compute in Hobj. discriminate Hobj.
Qed.

(** ** Further properties: group-versions and serialization types *)

Lemma split_no_separator (c : ascii) (s : string) :
  JS.includes c s = false -> JS.split c s = [s].
Proof.
  induction s as [|d r IH]; simpl; [reflexivity |].
  destruct (Ascii.eqb d c); [discriminate |].
  intros H. by rewrite (IH H).
Qed.

Lemma split_first (c : ascii) (s : string) :
  JS.includes c s = true ->
  JS.split c s = beforeFirst c s :: JS.split c (afterFirst c s).
Proof.
  induction s as [|d r IH]; simpl; [discriminate |].
  destruct (Ascii.eqb d c); [reflexivity |].
  intros H. by rewrite (IH H).
Qed.

Lemma split_head (c : ascii) (s : string) :
  exists rest, JS.split c s = beforeFirst c s :: rest.
Proof.
  induction s as [|d r [rest IH]]; simpl; [by eexists |].
  destruct (Ascii.eqb d c); [by eexists |].
  rewrite IH. by eexists.
Qed.

Lemma beforeFirst_no_separator (c : ascii) (s : string) :
  JS.includes c (beforeFirst c s) = false.
Proof.
  induction s as [|d r IH]; simpl; [reflexivity |].
  destruct (Ascii.eqb d c) eqn:Hd; simpl; [reflexivity |].
  by rewrite Hd.
Qed.

Lemma beforeFirst_whole (c : ascii) (s : string) :
  JS.includes c s = false -> beforeFirst c s = s.
Proof.
  induction s as [|d r IH]; simpl; [reflexivity |].
  destruct (Ascii.eqb d c); [discriminate |].
  intros H. by rewrite (IH H).
Qed.

Lemma beforeFirst_append (c : ascii) (g rest : string) :
  JS.includes c g = false -> beforeFirst c (g +:+ String c rest) = g.
Proof.
  induction g as [|d r IH].
  - intros _. rewrite append_nil. simpl. by rewrite Ascii.eqb_refl.
  - simpl. destruct (Ascii.eqb d c) eqn:Hd; [discriminate |].
    intros H. rewrite ?append_cons. simpl. by rewrite ?Hd, (IH H).
Qed.

Lemma afterFirst_append (c : ascii) (g rest : string) :
  JS.includes c g = false -> afterFirst c (g +:+ String c rest) = rest.
Proof.
  induction g as [|d r IH].
  - intros _. rewrite append_nil. simpl. by rewrite Ascii.eqb_refl.
  - simpl. destruct (Ascii.eqb d c) eqn:Hd; [discriminate |].
    intros H. rewrite ?append_cons. simpl. by rewrite ?Hd, (IH H).
Qed.

Lemma includes_append_separator (c : ascii) (g rest : string) :
  JS.includes c (g +:+ String c rest) = true.
Proof.
  rewrite includes_append. simpl. rewrite Ascii.eqb_refl. apply orb_true_r.
Qed.

(** X1.  [groupVersion] of an apiVersion without ["/"] is the group
    ["core"] with the whole text as version; otherwise the group is the text
    before the first ["/"] and the version the text between the first and
    the second ["/"] (what follows a second ["/"] is dropped).  The root of
    [apiVersionPath] is ["api"] in the first case and ["apis"] in the
    second, while the path keeps the whole apiVersion. *)
Theorem groupVersion_parts (this : KubernetesObjectApi) (apiVersion : string) :
  groupVersion apiVersion
  = (if JS.includes "/" apiVersion
     then {| group := beforeFirst "/" apiVersion;
             version := beforeFirst "/" (afterFirst "/" apiVersion) |}
     else {| group := "core"; version := apiVersion |})
  /\ apiVersionPath this apiVersion
     = basePath this +:+ "/"
       +:+ (if JS.includes "/" apiVersion then "apis" else "api")
       +:+ "/" +:+ apiVersion.
Proof.
  split; [|reflexivity].
  unfold groupVersion. destruct (JS.includes "/" apiVersion) eqn:Hs.
  - rewrite (split_first _ _ Hs).
    destruct (split_head "/" (afterFirst "/" apiVersion)) as [rest ->].
    reflexivity.
  - by rewrite (split_no_separator _ _ Hs).
Qed.

(** X2.  The serialization type of a group-version and a kind does not
    depend on the group: for a version without ["/"], every group gives the
    type of the bare version, the version with its first letter in upper
    case followed by the kind. *)
Theorem getSerializationType_ignores_group (g v kind : string) :
  JS.includes "/" g = false ->
  JS.includes "/" v = false ->
  getSerializationType (Some (JStr (g +:+ "/" +:+ v))) (Some (JStr kind))
  = getSerializationType (Some (JStr v)) (Some (JStr kind))
  /\ getSerializationType (Some (JStr v)) (Some (JStr kind))
     = Ok (JS.toUpperCase (JS.charAt0 v) +:+ JS.slice1 v +:+ kind).
Proof.
  intros Hg Hv. rewrite !getSerializationType_strings. unfold watchType.
  destruct (groupVersion_parts (newKubernetesObjectApi "" ∅ false) (g +:+ "/" +:+ v))
    as [-> _].
  destruct (groupVersion_parts (newKubernetesObjectApi "" ∅ false) v) as [-> _].
  change (g +:+ "/" +:+ v) with (g +:+ String "/" v).
  rewrite includes_append_separator, Hv. simpl.
  by rewrite (afterFirst_append _ _ _ Hg), (beforeFirst_whole _ _ Hv).
Qed.

Lemma getSerializationType_ignores_group_witness :
  getSerializationType (Some (JStr "apps/v1")) (Some (JStr "Deployment"))
  = getSerializationType (Some (JStr "v1")) (Some (JStr "Deployment"))
  /\ getSerializationType (Some (JStr "v1")) (Some (JStr "Deployment"))
     = Ok "V1Deployment".
Proof.
  exact (getSerializationType_ignores_group "apps" "v1" "Deployment"
           ltac:(reflexivity) ltac:(reflexivity)).
Defined.

(** ** Further properties: construction of a client *)

(** X3.  [setDefaultNamespace] returns the default namespace the client
    has afterwards, never makes a non-empty default namespace empty, moves
    it only to the non-empty namespace of the current context, and changes
    no other field of the client. *)
Theorem setDefaultNamespace_keeps_namespace (this : KubernetesObjectApi)
  (kc : KubeConfig) :
  defaultNamespace this <> "" ->
  let this' := snd (setDefaultNamespace this kc) in
  fst (setDefaultNamespace this kc) = defaultNamespace this'
  /\ defaultNamespace this' <> ""
  /\ (defaultNamespace this' = defaultNamespace this
      \/ exists name context,
           currentContext kc = Some name /\ name <> ""
           /\ getContextObject kc name = Some context
           /\ ctx_namespace context = Some (defaultNamespace this'))
  /\ basePath this' = basePath this
  /\ _defaultHeaders this' = _defaultHeaders this
  /\ _useQuerystring this' = _useQuerystring this
  /\ apiVersionResourceCache this' = apiVersionResourceCache this
  /\ watcher this' = watcher this.
Proof.
  intros Hne. unfold setDefaultNamespace. simpl.
  destruct (currentContext kc) as [[|c name]|] eqn:Hc; simpl;
    try (repeat split; (done || by left)).
  destruct (getContextObject kc (String c name)) as [context|] eqn:Hctx;
    try (repeat split; (done || by left)).
  destruct (ctx_namespace context) as [[|d ns]|] eqn:Hns; simpl;
    try (repeat split; (done || by left)).
  repeat split; try done.
  right. exists (String c name), context. by rewrite Hns.
Qed.

Lemma setDefaultNamespace_keeps_namespace_witness :
  fst (setDefaultNamespace (newKubernetesObjectApi Demo.base ∅ false)
         (Lab.config (Some "dev"))) = "team-a"
  /\ fst (setDefaultNamespace (newKubernetesObjectApi Demo.base ∅ false)
            (Lab.config (Some "bare"))) = "default".
Proof.
  split.
  - exact (proj1 (setDefaultNamespace_keeps_namespace
                    (newKubernetesObjectApi Demo.base ∅ false)
                    (Lab.config (Some "dev")) ltac:(discriminate))).
  - exact (proj1 (setDefaultNamespace_keeps_namespace
                    (newKubernetesObjectApi Demo.base ∅ false)
                    (Lab.config (Some "bare")) ltac:(discriminate))).
Defined.

(** X4.  The client [makeApiClient] returns is the instance the
    configuration constructs, with a watcher made for the configuration and
    with its default namespace read off the configuration: when the current
    context is named, is known to the configuration and has a non-empty
    namespace, the default namespace is that namespace; in every other case
    it is the one the instance was constructed with.  The base path, the
    default headers, the query-string flag and the cache are those of the
    instance. *)
Theorem makeApiClient_ready (newWatch : KubeConfig -> Watch)
  (construct : KubeConfig -> KubernetesObjectApi) (kc : KubeConfig) :
  let made := construct kc in
  let client := makeApiClient newWatch construct kc in
  watcher client = Some (newWatch kc)
  /\ (forall name context namespace,
        currentContext kc = Some name -> name <> "" ->
        getContextObject kc name = Some context ->
        ctx_namespace context = Some namespace -> namespace <> "" ->
        defaultNamespace client = namespace)
  /\ ((forall name context namespace,
         currentContext kc = Some name -> name <> "" ->
         getContextObject kc name = Some context ->
         ctx_namespace context = Some namespace -> namespace = "") ->
      defaultNamespace client = defaultNamespace made)
  /\ basePath client = basePath made
  /\ _defaultHeaders client = _defaultHeaders made
  /\ _useQuerystring client = _useQuerystring made
  /\ apiVersionResourceCache client = apiVersionResourceCache made.
Proof.
  intros made client. subst client made.
  unfold makeApiClient, setDefaultNamespace. simpl.
  split; [reflexivity |].
  destruct (currentContext kc) as [[|c name]|] eqn:Hc; simpl.
  - repeat split; try done. by intros name context namespace [= <-] Hne.
  - destruct (getContextObject kc (String c name)) as [context|] eqn:Hctx.
    + destruct (ctx_namespace context) as [[|d ns]|] eqn:Hns; simpl.
      * repeat split; try done.
        intros name' context' namespace [= <-] _. rewrite Hctx.
        intros [= <-]. rewrite Hns. by intros [= <-] Hne.
      * repeat split; try done.
        -- intros name' context' namespace [= <-] _. rewrite Hctx.
           intros [= <-]. rewrite Hns. by intros [= <-] _.
        -- intros Hnone.
           by pose proof (Hnone _ _ _ eq_refl ltac:(discriminate) Hctx Hns).
      * repeat split; try done.
        intros name' context' namespace [= <-] _. rewrite Hctx.
        intros [= <-]. by rewrite Hns.
    + repeat split; try done.
      intros name' context' namespace [= <-] _. by rewrite Hctx.
  - repeat split; done.
Qed.

(** The client made for the context [dev] of the lab has the namespace of
    that context, and the one made for a context without a namespace keeps
    ['default']. *)
Lemma makeApiClient_ready_witness :
  defaultNamespace Lab.devClient = "team-a"
  /\ defaultNamespace (makeApiClient Lab.newWatch Lab.construct (Lab.config (Some "bare")))
     = "default"
  /\ watcher Lab.devClient = Some Demo.session.
Proof.
  destruct (makeApiClient_ready Lab.newWatch Lab.construct (Lab.config (Some "dev")))
    as (Hw & Hset & _).
  destruct (makeApiClient_ready Lab.newWatch Lab.construct (Lab.config (Some "bare")))
    as (_ & _ & Hkeep & _).
  split; [|split].
  - exact (Hset "dev" {| ctx_name := "dev"; ctx_namespace := Some "team-a" |}
             "team-a" ltac:(reflexivity) ltac:(discriminate) ltac:(reflexivity)
             ltac:(reflexivity) ltac:(discriminate)).
  - apply Hkeep. intros name context namespace Hname _.
    injection Hname as <-. intros Hctx. injection Hctx as <-. discriminate.
  - exact Hw.
Defined.

(** ** Further properties: the path builder and watch *)

Lemma toLowerCase_append (a b : string) :
  JS.toLowerCase (a +:+ b) = JS.toLowerCase a +:+ JS.toLowerCase b.
Proof.
  unfold JS.toLowerCase. induction a as [|c a IH]; [reflexivity |].
  rewrite append_cons. simpl. by rewrite IH.
Qed.

Lemma join_snoc (sep : string) (l : list string) (x : string) :
  l <> [] -> JS.join sep (l ++ [x]) = JS.join sep l +:+ sep +:+ x.
Proof.
  unfold JS.join. induction l as [|a [|b l] IH]; intros Hne.
  - congruence.
  - reflexivity.
  - specialize (IH ltac:(discriminate)).
    change (String.concat sep ((a :: b :: l) ++ [x]))
      with (a +:+ sep +:+ String.concat sep ((b :: l) ++ [x])).
    rewrite IH.
    change (String.concat sep (a :: b :: l))
      with (a +:+ sep +:+ String.concat sep (b :: l)).
    by rewrite !append_assoc.
Qed.

Lemma lowerChar_slash (c : ascii) :
  Ascii.eqb (JS.lowerChar c) "/" = Ascii.eqb c "/".
Proof. destruct c as [[] [] [] [] [] [] [] []]; reflexivity. Qed.

Lemma includes_toLowerCase (s : string) :
  JS.includes "/" (JS.toLowerCase s) = JS.includes "/" s.
Proof.
  unfold JS.toLowerCase. induction s as [|c s IH]; simpl; [reflexivity |].
  by rewrite lowerChar_slash, IH.
Qed.

Lemma effectiveNamespace_idempotent (d : string) (namespaced : bool)
  (action : KubernetesApiAction) (ns : option string) :
  effectiveNamespace d namespaced action (effectiveNamespace d namespaced action ns)
  = effectiveNamespace d namespaced action ns.
Proof.
  unfold effectiveNamespace.
  destruct namespaced, (isList action), ns as [[|c ns]|], d; reflexivity.
Qed.

Lemma defaultedSpec_idempotent (d : string) (r : V1APIResource)
  (action : KubernetesApiAction) (spec : KubernetesObject) :
  defaultedSpec d r action (defaultedSpec d r action spec)
  = defaultedSpec d r action spec.
Proof.
  unfold defaultedSpec, specName, specNamespace. simpl.
  rewrite effectiveNamespace_idempotent.
  f_equal. unfold effectiveApiVersion. simpl.
  by destruct (obj_apiVersion spec) as [[|c v]|].
Qed.

Section Further.

Variable rt : Runtime.

(** What a resolve that found a descriptor leaves in the cache. *)
Lemma resource_found (gv kind : string) (s : ApiState) (r : V1APIResource)
  (s' : ApiState) :
  resource rt (Some gv) (Some kind) s = (Resolved (Some r), s') ->
  exists l, apiVersionResourceCache (client s') !! gv = Some l
            /\ findKind kind l = Some r.
Proof.
  destruct (searchCache (client s) gv kind) as [[r0|]|e] eqn:Hc.
  - apply searchCache_Some in Hc. rewrite (resource_hit rt _ _ _ _ Hc).
    intros [= -> <-].
    destruct (apiVersionResourceCache (client s) !! gv) as [l|]; [|discriminate].
    by exists l.
  - rewrite (resource_miss rt _ _ _ Hc). simpl.
    destruct (transport rt _ _) as [e|response body]; [discriminate |].
    destruct (is2xx _); [|discriminate].
    destruct (findIn kind _) as [[r0|]|e] eqn:Hf; try discriminate.
    intros [= -> <-]. apply findIn_Some in Hf.
    rewrite store_truthy.
    + eexists. simpl. rewrite lookup_insert_eq. by split.
    + apply searchOf_entries_truthy. unfold findKind in Hf. simpl in Hf.
      intros Hnil. by rewrite Hnil in Hf.
  - rewrite (resource_throws rt _ _ _ _ Hc). discriminate.
Qed.

(** A descriptor once resolved is resolved again from the cache. *)
Lemma resource_stable (gv kind : string) (s : ApiState) (r : V1APIResource)
  (s' : ApiState) :
  resource rt (Some gv) (Some kind) s = (Resolved (Some r), s') ->
  resource rt (Some gv) (Some kind) s' = (Resolved (Some r), s')
  /\ res_kind r = kind.
Proof.
  intros Hr. destruct (resource_found _ _ _ _ _ Hr) as (l & Hl & Hf). split.
  - apply resource_hit. by rewrite Hl.
  - apply find_some in Hf as [_ Hk]. by apply String.eqb_eq.
Qed.

(** From a path build that resolved: the kind was set and the resolver
    found a descriptor. *)
Lemma specUriPath_resolved_inv (spec : KubernetesObject)
  (action : KubernetesApiAction) (s : ApiState) (path : string)
  (spec' : KubernetesObject) (s' : ApiState) :
  specUriPath rt spec action s = (Resolved path, spec', s') ->
  JS.truthy (obj_kind spec) = true
  /\ exists r,
      resource rt (Some (effectiveApiVersion spec)) (obj_kind spec) s
      = (Resolved (Some r), s').
Proof.
  intros Hpath.
  destruct (JS.truthy (obj_kind spec)) eqn:Hk; cycle 1.
  { rewrite (specUriPath_no_kind rt _ _ _ Hk) in Hpath. discriminate. }
  split; [reflexivity |].
  destruct (resource rt (Some (effectiveApiVersion spec)) (obj_kind spec) s)
    as [o s1] eqn:Hr.
  destruct o as [[r|]|e|].
  - exists r. pose proof (specUriPath_state rt spec action s _ s1 Hk Hr) as Hs.
    rewrite Hpath in Hs. simpl in Hs. by subst s1.
  - rewrite (specUriPath_unresolved rt spec _ s _ s1 Hk Hr) in Hpath
      by discriminate. discriminate.
  - rewrite (specUriPath_unresolved rt spec _ s _ s1 Hk Hr) in Hpath
      by discriminate. discriminate.
  - by destruct (resource_effects rt _ _ _ _ _ Hr) as (? & _).
Qed.

(** X5.  [watch] without a watcher is rejected at once and leaves the
    state as it was.  In every case [watch] hands the transport nothing but,
    at most once, the discovery request of the watched apiVersion (["v1"]
    when the apiVersion given is empty): the stream itself is the watcher's
    business. *)
Theorem watch_requests (apiVersion kind : string) (namespace : option string)
  (options : option WatchOptions) (s : ApiState) :
  let s' := snd (watch rt apiVersion kind namespace options s) in
  (watcher (client s) = None ->
   watch rt apiVersion kind namespace options s
   = (Rejected (Error "Watcher not initialized"), s))
  /\ (requests s' = requests s
      \/ requests s'
         = requests s
           ++ [discoveryRequest (client s)
                 (if String.eqb apiVersion "" then "v1" else apiVersion)]).
Proof.
  simpl. split.
  - intros Hw. unfold watch. by rewrite Hw.
  - unfold watch. destruct (watcher (client s)) as [w|]; [|by left].
    pose proof (specUriPath_requests rt (headerOf apiVersion kind namespace)
                  ActionList s) as Hreq.
    simpl in Hreq.
    replace (effectiveApiVersion (headerOf apiVersion kind namespace))
      with (if String.eqb apiVersion "" then "v1" else apiVersion) in Hreq
      by (by destruct apiVersion).
    destruct (specUriPath rt (headerOf apiVersion kind namespace) ActionList s)
      as [[[path|e|] spec1] s1]; simpl in *; try exact Hreq.
    destruct (urlPathname rt path); [|exact Hreq].
    by destruct (watch_session w _ _).
Qed.

(** X6.  With a non-empty default namespace, a path built for a namespaced
    resource and an action other than list always addresses a namespace:
    the spec ends with a non-empty namespace, and the path carries
    ["namespaces"] and that namespace, escaped, before the plural name. *)
Theorem namespaced_path_has_namespace (spec : KubernetesObject)
  (action : KubernetesApiAction) (s : ApiState) (r : V1APIResource)
  (path : string) (spec' : KubernetesObject) (s' : ApiState) :
  defaultNamespace (client s) <> "" ->
  resource rt (Some (effectiveApiVersion spec)) (obj_kind spec) s
  = (Resolved (Some r), s') ->
  res_namespaced r = true ->
  isList action = false ->
  specUriPath rt spec action s = (Resolved path, spec', s') ->
  exists ns,
    ns <> ""
    /\ specNamespace spec' = Some ns
    /\ path
       = JS.toLowerCase
           (JS.join "/"
              ([basePath (client s); rootSegment (effectiveApiVersion spec);
                effectiveApiVersion spec; "namespaces"; JS.encodeURIComponent ns;
                res_name r]
               ++ (if isSingleObject action
                   then [JS.encodeURIComponent (default "" (specName spec))]
                   else []))).
Proof.
  intros Hd Hr Hn Hl Hpath.
  destruct (specUriPath_resolved_inv _ _ _ _ _ _ Hpath) as [Hk _].
  destruct (resource_effects rt _ _ _ _ _ Hr) as (_ & Hb & Hdn & _).
  rewrite (specUriPath_resolved rt spec action s r s' Hk Hr) in Hpath.
  destruct (_ && negb _)%bool in Hpath; [discriminate |].
  injection Hpath as <- <-. rewrite Hb, Hdn.
  unfold pathSegments, specNamespace at 1. simpl.
  unfold effectiveNamespace. rewrite Hn, Hl. simpl.
  destruct (JS.truthy (specNamespace spec)) eqn:Ht; simpl.
  - destruct (truthy_Some _ Ht) as (ns & Hns & Hne).
    exists ns. rewrite Ht, Hns. by simpl.
  - exists (defaultNamespace (client s)).
    destruct (defaultNamespace (client s)) as [|c d] eqn:Hdef; [done |].
    done.
Qed.

(** X7.  Building the path again from the spec and the state a successful
    path build left gives the same path, leaves spec and state as they are,
    and so hands the transport no request. *)
Theorem specUriPath_idempotent (spec : KubernetesObject)
  (action : KubernetesApiAction) (s : ApiState) (path : string)
  (spec' : KubernetesObject) (s' : ApiState) :
  specUriPath rt spec action s = (Resolved path, spec', s') ->
  specUriPath rt spec' action s' = (Resolved path, spec', s').
Proof.
  intros Hpath.
  destruct (specUriPath_resolved_inv _ _ _ _ _ _ Hpath) as [Hk [r Hr]].
  destruct (truthy_Some _ Hk) as (kind & Hkind & _).
  rewrite Hkind in Hr.
  destruct (resource_stable _ _ _ _ _ Hr) as [Hagain _].
  rewrite <- Hkind in Hr, Hagain.
  rewrite (specUriPath_resolved rt spec action s r s' Hk Hr) in Hpath.
  destruct (isSingleObject action && negb (JS.truthy (specName spec)))%bool eqn:Hname;
    [discriminate |].
  injection Hpath as <- <-.
  set (d := defaultNamespace (client s')).
  assert (effectiveApiVersion (defaultedSpec d r action spec)
          = effectiveApiVersion spec) as Hv.
  { unfold defaultedSpec, effectiveApiVersion. simpl.
    by destruct (obj_apiVersion spec) as [[|c v]|]. }
  rewrite (specUriPath_resolved rt (defaultedSpec d r action spec) action s' r s').
  - fold d. rewrite defaultedSpec_idempotent, Hv.
    change (specName (defaultedSpec d r action spec)) with (specName spec).
    change (specNamespace (defaultedSpec d r action spec))
      with (effectiveNamespace d (res_namespaced r) action (specNamespace spec)).
    by rewrite Hname, effectiveNamespace_idempotent.
  - exact Hk.
  - rewrite Hv. exact Hagain.
Qed.

(** X8.  A path build that fails after the kind check has already changed
    the caller's spec: the apiVersion is set (["v1"] when it was absent) and
    the metadata exists, whatever the error; kind and other fields are as
    before.  A path build that fails at the kind check leaves the spec
    untouched. *)
Theorem failed_path_build_mutates_spec (spec : KubernetesObject)
  (action : KubernetesApiAction) (s : ApiState) (e : JsError)
  (spec' : KubernetesObject) (s' : ApiState) :
  specUriPath rt spec action s = (Rejected e, spec', s') ->
  (JS.truthy (obj_kind spec) = false -> spec' = spec /\ s' = s)
  /\ (JS.truthy (obj_kind spec) = true ->
      obj_apiVersion spec' = Some (effectiveApiVersion spec)
      /\ is_Some (obj_metadata spec')
      /\ obj_kind spec' = obj_kind spec
      /\ obj_rest spec' = obj_rest spec).
Proof.
  intros Hfail. split; intros Hk.
  - rewrite (specUriPath_no_kind rt _ _ _ Hk) in Hfail. by injection Hfail as _ <- <-.
  - destruct (resource rt (Some (effectiveApiVersion spec)) (obj_kind spec) s)
      as [o s1] eqn:Hr.
    destruct o as [[r|]|e0|].
    + rewrite (specUriPath_resolved rt spec action s r s1 Hk Hr) in Hfail.
      injection Hfail as _ <- _. by repeat split.
    + rewrite (specUriPath_unresolved rt spec _ s _ s1 Hk Hr) in Hfail
        by discriminate.
      injection Hfail as _ <- _. by repeat split.
    + rewrite (specUriPath_unresolved rt spec _ s _ s1 Hk Hr) in Hfail
        by discriminate.
      injection Hfail as _ <- _. by repeat split.
    + by destruct (resource_effects rt _ _ _ _ _ Hr) as (? & _).
Qed.

End Further.

Section FurtherPaths.

Variable rt : Runtime.

(** X9.  For a single-object action the name makes exactly the last
    segment of the path: the path is a prefix, ["/"], and the name escaped
    and lower-cased, and that last part holds no ["/"] whatever the name
    is, so a name adds one segment to the path and never more. *)
Theorem name_is_last_segment (spec : KubernetesObject)
  (action : KubernetesApiAction) (s : ApiState) (path : string)
  (spec' : KubernetesObject) (s' : ApiState) :
  specUriPath rt spec action s = (Resolved path, spec', s') ->
  isSingleObject action = true ->
  exists prefix name,
    specName spec = Some name
    /\ name <> ""
    /\ path = prefix +:+ "/" +:+ JS.toLowerCase (JS.encodeURIComponent name)
    /\ JS.includes "/" (JS.toLowerCase (JS.encodeURIComponent name)) = false.
Proof.
  intros Hpath Hsingle.
  destruct (specUriPath_resolved_inv rt _ _ _ _ _ _ Hpath) as [Hk [r Hr]].
  rewrite (specUriPath_resolved rt spec action s r s' Hk Hr) in Hpath.
  rewrite Hsingle in Hpath. simpl in Hpath.
  destruct (JS.truthy (specName spec)) eqn:Hname; [|discriminate].
  simpl in Hpath. injection Hpath as <- _.
  destruct (truthy_Some _ Hname) as (name & Hn & Hne).
  unfold pathSegments. rewrite Hsingle, Hn. simpl default.
  match goal with
  | |- context [JS.join "/" (?a ++ ?n ++ ?p ++ [?x])] =>
      replace (a ++ n ++ p ++ [x]) with ((a ++ n ++ p) ++ [x])
        by (by rewrite <- !app_assoc);
      rewrite (join_snoc "/" (a ++ n ++ p) x) by discriminate
  end.
  rewrite toLowerCase_append, (toLowerCase_append "/").
  eexists. exists name. split; [reflexivity |]. split; [exact Hne |].
  split; [reflexivity |].
  by rewrite includes_toLowerCase, encodeURIComponent_no_slash.
Qed.

(** X10.  [watch] opens its session on the path name of the list path of
    the watched kind: no name segment, and the namespace pair only when the
    kind is namespaced and a namespace is given.  The default namespace is
    never filled in, so a watch without a namespace covers all namespaces.
    The events of the session reach the caller through the wrapper of the
    watched type, in order. *)
Theorem watch_opens_list_path (apiVersion kind : string) (namespace : option string)
  (options : option WatchOptions) (s : ApiState) (w : Watch) (r : V1APIResource)
  (s' : ApiState) :
  watcher (client s) = Some w ->
  kind <> "" ->
  resource rt (Some (effectiveApiVersion (headerOf apiVersion kind namespace)))
    (Some kind) s
  = (Resolved (Some r), s') ->
  let version := effectiveApiVersion (headerOf apiVersion kind namespace) in
  let listPath :=
    JS.toLowerCase
      (JS.join "/"
         ([basePath (client s); rootSegment version; version]
          ++ (if (res_namespaced r && JS.truthy namespace)%bool
              then ["namespaces"; JS.encodeURIComponent (default "" namespace)]
              else [])
          ++ [res_name r])) in
  watch rt apiVersion kind namespace options s
  = (match urlPathname rt listPath with
     | Throw e => Rejected e
     | Ok resourcePath =>
         match watch_session w resourcePath
                 (default {| allowWatchBookmarks := None; resourceVersion := None |}
                    options) with
         | Throw e => Rejected e
         | Ok events => Resolved (map (cb rt (watchType apiVersion kind)) events)
         end
     end, s').
Proof.
  intros Hw Hkind Hr version listPath.
  assert (JS.truthy (obj_kind (headerOf apiVersion kind namespace)) = true) as Hk.
  { simpl. by destruct kind. }
  destruct (resource_effects rt _ _ _ _ _ Hr) as (_ & Hb & _).
  pose proof (specUriPath_resolved rt (headerOf apiVersion kind namespace)
                ActionList s r s' Hk Hr) as Hpath.
  simpl in Hpath. rewrite Hb in Hpath.
  unfold pathSegments, effectiveNamespace in Hpath. simpl in Hpath.
  rewrite andb_false_r in Hpath. simpl in Hpath.
  assert (specUriPath rt (headerOf apiVersion kind namespace) ActionList s
          = (Resolved listPath,
             defaultedSpec (defaultNamespace (client s')) r ActionList
               (headerOf apiVersion kind namespace), s')) as Hlist
    by exact Hpath.
  clearbody listPath. clear Hpath.
  unfold watch. rewrite Hw, Hlist. simpl.
  destruct (urlPathname rt listPath) as [resourcePath|e]; [|reflexivity].
  unfold watchType.
  destruct (watch_session w resourcePath _); [|reflexivity].
  by rewrite append_assoc.
Qed.

End FurtherPaths.

(** ** Further properties: the resolver and the requests *)

Lemma snoc_ne {A : Type} (l : list A) (x : A) : l ++ [x] <> l.
Proof.
  intros H. apply (f_equal length) in H. rewrite length_app in H.
  simpl in H. lia.
Qed.

Lemma is2xx_range (code : option Z) :
  is2xx code = true <-> exists c, code = Some c /\ 200 <= c <= 299.
Proof.
  unfold is2xx. split.
  - destruct code as [c|]; [|discriminate].
    intros H. apply andb_prop in H as [H H2]. apply andb_prop in H as [_ H1].
    exists c. split; [reflexivity | lia].
  - intros (c & -> & Hc).
    destruct (Z.eqb_spec c 0); [lia |]. simpl.
    apply andb_true_intro. split; lia.
Qed.

Section FurtherRequests.

Variable rt : Runtime.

(** X11.  A descriptor [resource] returns has the kind that was asked for,
    is an entry of the list the cache holds for the group-version
    afterwards, and is returned again, without a fetch, by the next resolve
    of the pair. *)
Theorem resource_found_is_cached (gv kind : string) (s : ApiState)
  (r : V1APIResource) (s' : ApiState) :
  resource rt (Some gv) (Some kind) s = (Resolved (Some r), s') ->
  res_kind r = kind
  /\ (exists l, apiVersionResourceCache (client s') !! gv = Some l
                /\ In r (rl_resources l)
                /\ findKind kind l = Some r)
  /\ resource rt (Some gv) (Some kind) s' = (Resolved (Some r), s').
Proof.
  intros Hr. destruct (resource_stable rt _ _ _ _ _ Hr) as [Hagain Hk].
  split; [exact Hk |]. split; [|exact Hagain].
  destruct (resource_found rt _ _ _ _ _ Hr) as (l & Hl & Hf).
  exists l. split; [exact Hl |]. split; [|exact Hf].
  by apply find_some in Hf as [Hin _].
Qed.

(** X12.  [resource] never touches the cache entries of other
    group-versions, and a resolve that hands the transport nothing leaves
    the whole state as it was.  A fetch that fails, at the transport or with
    a status that is not 2xx, is not cached: the cache is as before.  A
    fetch answered with a 2xx status is cached whatever the resolve comes
    to: the entry of the group-version is the body of the answer, or no
    entry when that body is falsy.  So when the search of the body throws
    (it has no array of resources), the resolve is rejected with the
    [TypeError], its message prefixed, and the body stays in the cache; from
    then on the resolve of every kind of that group-version is rejected
    with the bare [TypeError] and fetches nothing.  No entry is ever made
    under the name of an inherited property.  When the resolve
    reports the kind as not found, that is the verdict of a list fetched in
    this call and now cached, never of the cache alone. *)
Theorem resource_cache_frame (gv kind : string) (s : ApiState) :
  let o := fst (resource rt (Some gv) (Some kind) s) in
  let s' := snd (resource rt (Some gv) (Some kind) s) in
  let req := discoveryRequest (client s) gv in
  (forall gv', gv' <> gv ->
     apiVersionResourceCache (client s') !! gv'
     = apiVersionResourceCache (client s) !! gv')
  /\ (requests s' = requests s -> s' = s)
  /\ (forall name, isInherited name = true ->
        apiVersionResourceCache (client s) !! name = None ->
        apiVersionResourceCache (client s') !! name = None)
  /\ (searchCache (client s) gv kind = Ok None ->
      (forall e, transport rt (requests s) req = NetFailure e ->
         apiVersionResourceCache (client s') = apiVersionResourceCache (client s))
      /\ (forall response body,
            transport rt (requests s) req = NetResponse response body ->
            let decoded := deserialize rt body "V1APIResourceList" in
            let fresh := asV1APIResourceList decoded in
            (is2xx (statusCode response) = false ->
             apiVersionResourceCache (client s')
             = apiVersionResourceCache (client s))
            /\ (is2xx (statusCode response) = true ->
                apiVersionResourceCache (client s') !! gv
                = (if truthyValue decoded then Some fresh else None)
                /\ forall message,
                    rl_resources fresh = [] ->
                    rl_throws fresh = Some message ->
                    o = Rejected
                          (TypeError ("Failed to fetch resource metadata for "
                                      +:+ gv +:+ "/" +:+ kind +:+ ": " +:+ message))
                    /\ (truthyValue decoded = true ->
                        forall kind',
                          resource rt (Some gv) (Some kind') s'
                          = (Rejected (TypeError message), s')))))
  /\ (o = Resolved None ->
      requests s' = requests s ++ [req]
      /\ exists fresh,
          apiVersionResourceCache (client s') !! gv = Some fresh
          /\ findKind kind fresh = None
          /\ rl_throws fresh = None).
Proof.
  simpl.
  destruct (searchCache (client s) gv kind) as [[r0|]|e0] eqn:Hc.
  - apply searchCache_Some in Hc. rewrite (resource_hit rt _ _ _ _ Hc). simpl.
    by repeat split.
  - rewrite (resource_miss rt _ _ _ Hc). simpl.
    set (req := discoveryRequest (client s) gv).
    destruct (transport rt (requests s) req) as [e|response body] eqn:Ht; simpl.
    { split; [done |]. split; [intros H; by apply snoc_ne in H |].
      split; [done |].
      split; [|discriminate]. intros _. split; [done |]. discriminate. }
    set (decoded := deserialize rt body "V1APIResourceList").
    destruct (is2xx (statusCode response)) eqn:H2; simpl; cycle 1.
    { split; [done |]. split; [intros H; by apply snoc_ne in H |].
      split; [done |].
      split; [|discriminate]. intros _. split; [discriminate |].
      intros response' body' [= <- <-]. rewrite H2. split; [done | discriminate]. }
    pose proof (store_frame gv decoded (record_request req s))
      as (_ & _ & _ & _ & _ & Hreq).
    split; [intros gv' Hne; by rewrite store_other |].
    split; [rewrite Hreq; simpl; intros H; by apply snoc_ne in H |].
    split.
    { intros name Hname Hnone. rewrite store_other; [exact Hnone |].
      intros ->. rewrite (searchCache_absent _ _ _ Hnone), Hname in Hc.
      discriminate. }
    split.
    + intros _. split; [discriminate |].
      intros response' body' [= <- <-]. rewrite H2. split; [discriminate |].
      intros _. fold decoded. split.
      * unfold store. destruct (truthyValue decoded); simpl.
        -- apply lookup_insert_eq.
        -- apply lookup_delete_eq.
      * intros message Hnil Hthrows.
        assert (forall k, findIn k (asV1APIResourceList decoded)
                          = Throw (TypeError message)) as Hfind.
        { intros k. unfold findIn, findKind.
          change (rl_resources (asV1APIResourceList decoded) = []) in Hnil.
          change (rl_throws (asV1APIResourceList decoded) = Some message)
            in Hthrows.
          by rewrite Hnil, Hthrows. }
        rewrite Hfind. split; [reflexivity |].
        intros Htruthy kind'. apply resource_throws.
        rewrite store_truthy by exact Htruthy.
        erewrite searchCache_own; [apply Hfind |].
        simpl. apply lookup_insert_eq.
    + destruct (findIn kind (asV1APIResourceList decoded)) as [[r|]|e] eqn:Hf;
        try discriminate.
      intros _. apply findIn_None in Hf as [Hf Hsound].
      rewrite Hreq. split; [reflexivity |].
      rewrite store_truthy by (by apply searchOf_sound_truthy).
      eexists. simpl. rewrite lookup_insert_eq. by repeat split.
  - rewrite (resource_throws rt _ _ _ _ Hc). simpl.
    by repeat split.
Qed.

(** X19.  The cache discipline of [resource] on a group-version that is
    not the name of an inherited property.  When the cache holds a list for
    the group-version, the first of its entries of the kind is returned and
    the state is left as it is: no fetch.  When the cache holds nothing for
    the group-version, or a complete list without an entry of the kind,
    exactly the discovery request of the group-version is handed to the
    transport; if it is answered with a 2xx status and a body with an array
    of resources, the entry of the group-version is that body, in place of
    what was there, the result is the first entry of the kind in it, or not
    found when it has none, and a second resolve of a pair found this way
    returns the same descriptor with no fetch. *)
Theorem resource_cache_discipline (gv kind : string) (s : ApiState) :
  let cache := apiVersionResourceCache (client s) in
  let req := discoveryRequest (client s) gv in
  let o := fst (resource rt (Some gv) (Some kind) s) in
  let s' := snd (resource rt (Some gv) (Some kind) s) in
  (forall l r, cache !! gv = Some l -> FirstOfKind kind (rl_resources l) r ->
     resource rt (Some gv) (Some kind) s = (Resolved (Some r), s))
  /\ ((cache !! gv = None /\ isInherited gv = false
       \/ exists l, cache !! gv = Some l
                    /\ NoneOfKind kind (rl_resources l)
                    /\ rl_throws l = None) ->
      requests s' = requests s ++ [req]
      /\ forall response body,
          transport rt (requests s) req = NetResponse response body ->
          is2xx (statusCode response) = true ->
          let fresh :=
            asV1APIResourceList (deserialize rt body "V1APIResourceList") in
          rl_throws fresh = None ->
          apiVersionResourceCache (client s') = <[gv := fresh]> cache
          /\ (forall r, FirstOfKind kind (rl_resources fresh) r ->
                o = Resolved (Some r)
                /\ requests s' = requests s ++ [req]
                /\ resource rt (Some gv) (Some kind) s' = (Resolved (Some r), s'))
          /\ (NoneOfKind kind (rl_resources fresh) -> o = Resolved None)).
Proof.
  intros cache req o s'. split.
  - intros l r Hl Hf. apply resource_hit. fold cache. rewrite Hl. simpl.
    by apply find_first.
  - intros Hmiss.
    assert (searchCache (client s) gv kind = Ok None) as Hc.
    { destruct Hmiss as [[Hnone Hname]|(l & Hl & Hf & Hsound)].
      - by rewrite (searchCache_absent _ _ _ Hnone), Hname.
      - rewrite (searchCache_own _ _ _ _ Hl). apply findIn_None.
        split; [by apply find_none | exact Hsound]. }
    subst o s'. rewrite (resource_miss rt gv kind s Hc). simpl. fold req.
    destruct (transport rt (requests s) req) as [e|response body] eqn:Ht.
    { split; [reflexivity |]. discriminate. }
    destruct (is2xx (statusCode response)) eqn:H2; simpl; cycle 1.
    { split; [reflexivity |]. intros response' body' [= <- <-]. by rewrite H2. }
    set (decoded := deserialize rt body "V1APIResourceList").
    pose proof (store_frame gv decoded (record_request req s))
      as (_ & _ & _ & _ & _ & Hreq).
    split; [exact Hreq |].
    intros response' body' [= <- <-] _ Hsound. fold decoded in Hsound |- *.
    rewrite store_truthy by (by apply searchOf_sound_truthy).
    split; [reflexivity |]. split.
    + intros r Hf. apply find_first in Hf.
      change (findKind kind (asV1APIResourceList decoded) = Some r) in Hf.
      rewrite (findIn_found _ _ _ Hf). split; [reflexivity |].
      split; [reflexivity |].
      apply resource_hit. simpl. by rewrite lookup_insert_eq.
    + intros Hf. apply find_none in Hf.
      change (findKind kind (asV1APIResourceList decoded) = None) in Hf.
      by rewrite (proj2 (findIn_None _ _) (conj Hf Hsound)).
Qed.

(** X13.  An operation whose own argument checks fail is rejected with an
    [Error] and leaves the state as it was.  Otherwise the requests it adds
    are, in order, at most the one discovery request of the path build and
    at most one request of its own, with the method of the operation: no
    request is repeated and no further page is fetched. *)
Theorem perform_requests (c : Call) (s : ApiState) :
  match pathInput c with
  | None =>
      (exists message, fst (fst (perform rt c s)) = Rejected (Error message))
      /\ snd (perform rt c s) = s
  | Some spec =>
      exists discovery own,
        newRequests rt c s = discovery ++ own
        /\ (discovery = []
            \/ discovery = [discoveryRequest (client s) (effectiveApiVersion spec)])
        /\ (own = []
            \/ exists path spec1 s1,
                 specUriPath rt spec (callAction c) s = (Resolved path, spec1, s1)
                 /\ own = [callRequest rt c (client s1) path spec1])
  end.
Proof.
  destruct (pathInput c) as [spec|] eqn:Hin.
  - pose proof (specUriPath_requests rt spec (callAction c) s) as Hd.
    unfold newRequests. rewrite (perform_path rt c spec s Hin). unfold performFrom.
    destruct (specUriPath rt spec (callAction c) s) as [[[path|e|] spec1] s1] eqn:Hp;
      simpl in *.
    + pose proof (requestPromise_state rt (callRequest rt c (client s1) path spec1)
                    (declaredType c) s1) as Hs.
      destruct (requestPromise _ _ _ _) as [o s2]. simpl in *. subst s2. simpl.
      destruct Hd as [-> | ->].
      * exists [], [callRequest rt c (client s1) path spec1].
        rewrite drop_app_length. split; [reflexivity |]. split; [by left |].
        right. by exists path, spec1, s1.
      * eexists _, [callRequest rt c (client s1) path spec1].
        rewrite <- app_assoc, drop_app_length. split; [reflexivity |].
        split; [by right |]. right. by exists path, spec1, s1.
    + destruct Hd as [-> | ->].
      * exists [], []. rewrite drop_all. by repeat split; left.
      * eexists _, []. rewrite drop_app_length, app_nil_r.
        split; [reflexivity |]. split; [by right | by left].
    + destruct Hd as [-> | ->].
      * exists [], []. rewrite drop_all. by repeat split; left.
      * eexists _, []. rewrite drop_app_length, app_nil_r.
        split; [reflexivity |]. split; [by right | by left].
  - destruct c as [o ? ? ? ?|o ? ? ? ? ? ? ?|o ? ? ? ? ?|o ? ? ? ?|a k ? ? ? ? ? ? ? ? ?|o ? ? ? ?];
      simpl in *; try (subst o; split; [by eexists | reflexivity]).
    + destruct o as [o|]; simpl in *; [|split; [by eexists | reflexivity]].
      unfold read. destruct (obj_kind o); [|split; [by eexists | reflexivity]].
      destruct (JS.truthy (obj_apiVersion o)); [discriminate |].
      split; [by eexists | reflexivity].
    + unfold list_. destruct a as [a|]; [|split; [by eexists | reflexivity]].
      destruct k as [k|]; [discriminate |].
      split; [by eexists | reflexivity].
Qed.

(** X14.  An answer without a body ([undefined] or [null]) to the request
    of create, read, replace, patch or list leaves the promise of the
    operation unsettled, whatever the status: it is neither resolved nor
    rejected.  Delete, which names its type, settles on such an answer. *)
Theorem absent_body_never_settles (c : Call) (spec : KubernetesObject)
  (s : ApiState) (path : string) (spec1 : KubernetesObject) (s1 : ApiState)
  (response : IncomingMessage) (body : any) :
  pathInput c = Some spec ->
  specUriPath rt spec (callAction c) s = (Resolved path, spec1, s1) ->
  transport rt (requests s1) (callRequest rt c (client s1) path spec1)
  = NetResponse response body ->
  body = None \/ body = Some JNull ->
  fst (fst (perform rt c s))
  = match callAction c with
    | ActionDelete => settle rt response (deserialize rt body "V1Status")
    | _ => Pending
    end.
Proof.
  intros Hin Hpath Ht Hb.
  destruct (perform_settles rt c spec s path spec1 s1 Hin Hpath) as [-> _].
  rewrite Ht. unfold decodeType.
  destruct c; simpl; try reflexivity; by destruct Hb as [-> | ->].
Qed.

(** X15.  With a type given, [requestPromise] resolves exactly when the
    transport answers with a status code from 200 to 299; an answer with any
    other status code, or with none, is rejected with an [HttpError] that
    carries the code and the deserialized body, and a failure of the
    transport is rejected with the failure. *)
Theorem requestPromise_resolves_iff (req : RequestOptions) (t : string)
  (s : ApiState) :
  ((exists result, fst (requestPromise rt req (Some t) s) = Resolved result)
   <-> exists response body c,
         transport rt (requests s) req = NetResponse response body
         /\ statusCode response = Some c /\ 200 <= c <= 299)
  /\ (forall response body,
        transport rt (requests s) req = NetResponse response body ->
        ~ (exists c, statusCode response = Some c /\ 200 <= c <= 299) ->
        fst (requestPromise rt req (Some t) s)
        = Rejected (HttpError (httpErrorMessage rt) response
                      (deserialize rt body t) (statusCode response)))
  /\ (forall e,
        transport rt (requests s) req = NetFailure e ->
        fst (requestPromise rt req (Some t) s) = Rejected e).
Proof.
  split; [|split].
  - destruct (transport rt (requests s) req) as [e|response body] eqn:Ht.
    + rewrite (requestPromise_failure rt _ _ _ _ Ht). simpl. split.
      * intros [result H]. discriminate.
      * intros (? & ? & ? & H & _). discriminate.
    + rewrite (requestPromise_typed rt _ _ _ _ _ Ht). simpl. unfold settle. split.
      * intros [result H]. destruct (is2xx (statusCode response)) eqn:H2;
          [|discriminate].
        apply is2xx_range in H2 as (c & Hc & Hr). by exists response, body, c.
      * intros (response' & body' & c & [= <- <-] & Hc & Hr).
        assert (is2xx (statusCode response) = true) as ->
          by (apply is2xx_range; by exists c).
        by eexists.
  - intros response body Ht Hno.
    rewrite (requestPromise_typed rt _ _ _ _ _ Ht). simpl. unfold settle.
    destruct (is2xx (statusCode response)) eqn:H2; [|reflexivity].
    destruct Hno. by apply is2xx_range.
  - intros e Ht. by rewrite (requestPromise_failure rt _ _ _ _ Ht).
Qed.

End FurtherRequests.

(** ** Further properties: what a request carries *)

(** X18.  [generateHeaders] passes a default header of the client through
    whenever the caller does not supply that header, except [accept], which
    it always sets itself, and, for ['PATCH'], [content-type]; for any other
    action [content-type] has no default of the method's own. *)
Theorem generateHeaders_frame (this : KubernetesObjectApi)
  (supplied : gmap string string) (action : option string) (k : string) :
  supplied !! k = None ->
  k <> "accept" ->
  (default "GET" action = "PATCH" -> k <> "content-type") ->
  generateHeaders this supplied action !! k = _defaultHeaders this !! k.
Proof.
  intros Hs Ha Hc. unfold generateHeaders. rewrite (lookup_union_r _ _ _ Hs).
  destruct (String.eqb_spec (default "GET" action) "PATCH") as [Hp|Hp].
  - rewrite lookup_insert_ne by (intros <-; by apply Hc).
    rewrite lookup_insert_ne by (intros <-; by apply Ha). reflexivity.
  - rewrite lookup_insert_ne by (intros <-; by apply Ha). reflexivity.
Qed.

Lemma generateHeaders_frame_witness :
  generateHeaders Lab.devClient ∅ None !! "user-agent" = Some "lab"
  /\ generateHeaders Lab.devClient ∅ None !! "content-type" = None.
Proof.
  split.
  - exact (generateHeaders_frame Lab.devClient ∅ None "user-agent"
             (lookup_empty _) ltac:(discriminate) ltac:(discriminate)).
  - exact (generateHeaders_frame Lab.devClient ∅ None "content-type"
             (lookup_empty _) ltac:(discriminate) ltac:(discriminate)).
Defined.

Section FurtherContents.

Variable rt : Runtime.

(** X16.  The request of create, replace and patch carries the spec as the
    path build left it, not as the caller gave it: the body is the
    serialization of the spec with the apiVersion and the namespace
    defaults filled in.  Read and list send no body, and delete sends the
    delete options, never the spec. *)
Theorem request_body_after_defaults (c : Call) (spec : KubernetesObject)
  (s : ApiState) (path : string) (spec1 : KubernetesObject) (s1 : ApiState) :
  pathInput c = Some spec ->
  specUriPath rt spec (callAction c) s = (Resolved path, spec1, s1) ->
  exists req r,
    last (requests (snd (perform rt c s))) = Some req
    /\ method req = callMethod c
    /\ uri req = path
    /\ resource rt (Some (effectiveApiVersion spec)) (obj_kind spec) s
       = (Resolved (Some r), s1)
    /\ spec1 = defaultedSpec (defaultNamespace (client s)) r (callAction c) spec
    /\ body req
       = match c with
         | CallCreate _ _ _ _ _ | CallReplace _ _ _ _ _ =>
             Some (serialize rt (Some (objectToJson spec1)) "KubernetesObject")
         | CallPatch _ _ _ _ _ _ =>
             Some (serialize rt (Some (objectToJson spec1)) "object")
         | CallDelete _ _ _ _ _ _ deleteOptions _ =>
             Some (serialize rt deleteOptions "V1DeleteOptions")
         | CallRead _ _ _ _ _ | CallList _ _ _ _ _ _ _ _ _ _ _ => None
         end.
Proof.
  intros Hin Hpath.
  destruct (specUriPath_resolved_inv rt _ _ _ _ _ _ Hpath) as [Hk [r Hr]].
  destruct (resource_effects rt _ _ _ _ _ Hr) as (_ & _ & Hd & _).
  exists (callRequest rt c (client s1) path spec1), r.
  destruct (perform_settles rt c spec s path spec1 s1 Hin Hpath) as [_ ->].
  simpl. rewrite last_snoc.
  split; [reflexivity |]. split; [reflexivity |]. split; [reflexivity |].
  split; [exact Hr |]. split; [|by destruct c].
  rewrite (specUriPath_resolved rt spec _ s r s1 Hk Hr) in Hpath.
  destruct (_ && _)%bool in Hpath; [discriminate |].
  injection Hpath as _ <-. by rewrite Hd.
Qed.

(** X17.  The query of a list request holds exactly the arguments that were
    given, each under its key: [continueToken] under [continue] and
    [exportt] under [export], the others under their own names; an argument
    left undefined adds nothing, and no other key is ever set. *)
Theorem list_query (apiVersion kind : string) (namespace pretty : option string)
  (exact exportt : option bool) (fieldSelector labelSelector : option string)
  (limit : option Z) (continueToken : option string)
  (options : option CallOptions) (s : ApiState)
  (path : string) (spec1 : KubernetesObject) (s1 : ApiState) :
  let c := CallList (Some apiVersion) (Some kind) namespace pretty exact exportt
             fieldSelector labelSelector limit continueToken options in
  specUriPath rt (headerOf apiVersion kind namespace) ActionList s
  = (Resolved path, spec1, s1) ->
  exists req,
    last (requests (snd (perform rt c s))) = Some req
    /\ method req = "GET"
    /\ qs req !! "pretty" = serialized rt (JStr <$> pretty) "string"
    /\ qs req !! "exact" = serialized rt (JBool <$> exact) "boolean"
    /\ qs req !! "export" = serialized rt (JBool <$> exportt) "boolean"
    /\ qs req !! "fieldSelector" = serialized rt (JStr <$> fieldSelector) "string"
    /\ qs req !! "labelSelector" = serialized rt (JStr <$> labelSelector) "string"
    /\ qs req !! "limit" = serialized rt (JNum <$> limit) "number"
    /\ qs req !! "continue" = serialized rt (JStr <$> continueToken) "string"
    /\ forall k,
        ~ In k ["pretty"; "exact"; "export"; "fieldSelector"; "labelSelector";
                "limit"; "continue"] ->
        qs req !! k = None.
Proof.
  intros c Hpath.
  exists (callRequest rt c (client s1) path spec1).
  destruct (perform_settles rt c (headerOf apiVersion kind namespace) s path spec1 s1
              eq_refl Hpath) as [_ ->].
  simpl. rewrite last_snoc.
  repeat split;
    try (rewrite ?setIfDefined_other by discriminate;
         rewrite setIfDefined_lookup; [reflexivity |];
         rewrite ?setIfDefined_other by discriminate; apply lookup_empty).
  intros k Hk. simpl in Hk.
  rewrite !setIfDefined_other by (intros <-; apply Hk; tauto).
  apply lookup_empty.
Qed.

End FurtherContents.

(** ** The further properties on the two clusters *)

Lemma namespaced_path_has_namespace_witness :
  exists ns, ns <> "" /\ specNamespace Demo.webPodDefaulted = Some ns.
Proof.
  destruct (namespaced_path_has_namespace Demo.runtime Demo.webPod ActionCreate
              Demo.start Demo.podResource Demo.podsPath Demo.webPodDefaulted
              Demo.warm ltac:(discriminate) ltac:(vm_compute; reflexivity)
              ltac:(reflexivity) ltac:(reflexivity)
              ltac:(vm_compute; reflexivity)) as (ns & Hne & Hns & _).
  exists ns. split; [exact Hne | exact Hns].
Defined.

Lemma specUriPath_idempotent_witness :
  specUriPath Demo.runtime Demo.webPodDefaulted ActionCreate Demo.warm
  = (Resolved Demo.podsPath, Demo.webPodDefaulted, Demo.warm).
Proof.
  exact (specUriPath_idempotent Demo.runtime Demo.webPod ActionCreate Demo.start
           Demo.podsPath Demo.webPodDefaulted Demo.warm
           ltac:(vm_compute; reflexivity)).
Defined.

(** A delete of a pod given with a kind only fails for want of a name, and
    the caller's object has the apiVersion by then. *)
Lemma failed_path_build_mutates_spec_witness :
  obj_apiVersion (Demo.object (Some "v1") (Some "Pod") (Some "default") None)
  = Some "v1"
  /\ is_Some (obj_metadata
                (Demo.object (Some "v1") (Some "Pod") (Some "default") None)).
Proof.
  destruct (failed_path_build_mutates_spec Demo.runtime
              (Demo.object None (Some "Pod") None None) ActionDelete Demo.start
              nameNotSet
              (Demo.object (Some "v1") (Some "Pod") (Some "default") None)
              Demo.warm ltac:(vm_compute; reflexivity)) as [_ Hset].
  destruct (Hset ltac:(reflexivity)) as (Hv & Hm & _).
  split; [exact Hv | exact Hm].
Defined.

(** Reading a pod named ["a/B"]: the name is one escaped, lower-cased
    segment. *)
Lemma name_is_last_segment_witness :
  exists prefix,
    "https://kube.example.com:6443/api/v1/namespaces/default/pods/a%2fb"
    = prefix +:+ "/" +:+ "a%2fb".
Proof.
  destruct (name_is_last_segment Demo.runtime Lab.oddPod ActionRead Demo.start
              "https://kube.example.com:6443/api/v1/namespaces/default/pods/a%2fb"
              Lab.oddPod Demo.warm ltac:(vm_compute; reflexivity)
              ltac:(reflexivity)) as (prefix & name & Hn & _ & Hp & _).
  exists prefix. injection Hn as <-. exact Hp.
Defined.

Lemma watch_opens_list_path_witness :
  watch Demo.runtime "v1" "Pod" None None Demo.start
  = (Resolved (map (cb Demo.runtime "V1Pod") Demo.stream), Demo.warm).
Proof.
  exact (watch_opens_list_path Demo.runtime "v1" "Pod" None None Demo.start
           Demo.session Demo.podResource Demo.warm
           ltac:(reflexivity) ltac:(discriminate) ltac:(vm_compute; reflexivity)).
Defined.

Lemma resource_found_is_cached_witness :
  res_kind Demo.podResource = "Pod"
  /\ resource Demo.runtime (Some "v1") (Some "Pod") Demo.warm
     = (Resolved (Some Demo.podResource), Demo.warm).
Proof.
  destruct (resource_found_is_cached Demo.runtime "v1" "Pod" Demo.start
              Demo.podResource Demo.warm ltac:(vm_compute; reflexivity))
    as (Hk & _ & Hagain).
  split; [exact Hk | exact Hagain].
Defined.

(** A server that answers a create with a status and no body: the create
    never settles; the delete is rejected with the status. *)
Lemma absent_body_never_settles_witness :
  fst (fst (perform Lab.mute (CallCreate (Some Demo.webPod) None None None None)
              Demo.start)) = Pending
  /\ fst (fst (perform Lab.mute
                 (CallDelete (Some Demo.webPod) None None None None None None None)
                 Demo.start))
     = Rejected (HttpError "HTTP request failed"
                   {| statusCode := Some 500; statusMessage := None |} None
                   (Some 500)).
Proof.
  split.
  - exact (absent_body_never_settles Lab.mute
             (CallCreate (Some Demo.webPod) None None None None) Demo.webPod
             Demo.start Demo.podsPath Demo.webPodDefaulted Demo.warm
             {| statusCode := Some 500; statusMessage := None |} None
             ltac:(reflexivity) ltac:(vm_compute; reflexivity)
             ltac:(vm_compute; reflexivity) (or_introl eq_refl)).
  - exact (absent_body_never_settles Lab.mute
             (CallDelete (Some Demo.webPod) None None None None None None None)
             Demo.webPod Demo.start Demo.webPodPath Demo.webPodDefaulted Demo.warm
             {| statusCode := Some 500; statusMessage := None |} None
             ltac:(reflexivity) ltac:(vm_compute; reflexivity)
             ltac:(vm_compute; reflexivity) (or_introl eq_refl)).
Defined.

(** The body of a create is the pod with ["v1"] and the default namespace,
    which the caller had left out. *)
Lemma request_body_after_defaults_witness :
  exists req,
    last (requests (snd (perform Demo.runtime
                           (CallCreate (Some Demo.webPod) None None None None)
                           Demo.start))) = Some req
    /\ body req = Some (Some (objectToJson Demo.webPodDefaulted)).
Proof.
  destruct (request_body_after_defaults Demo.runtime
              (CallCreate (Some Demo.webPod) None None None None) Demo.webPod
              Demo.start Demo.podsPath Demo.webPodDefaulted Demo.warm
              ltac:(reflexivity) ltac:(vm_compute; reflexivity))
    as (req & r & Hlast & _ & _ & _ & _ & Hbody).
  exists req. split; [exact Hlast | exact Hbody].
Defined.

Lemma list_query_witness :
  exists req,
    last (requests
            (snd (perform Demo.runtime
                    (CallList (Some "v1") (Some "Pod") None None None None None
                       None (Some 5) (Some "next") None)
                    Demo.start))) = Some req
    /\ qs req !! "continue" = Some (Some (JStr "next"))
    /\ qs req !! "limit" = Some (Some (JNum 5))
    /\ qs req !! "continueToken" = None.
Proof.
  destruct (list_query Demo.runtime "v1" "Pod" None None None None None None
              (Some 5) (Some "next") None Demo.start
              "https://kube.example.com:6443/api/v1/pods"
              (Demo.object (Some "v1") (Some "Pod") None None) Demo.warm
              ltac:(vm_compute; reflexivity))
    as (req & Hlast & _ & _ & _ & _ & _ & _ & Hlimit & Hcontinue & Hother).
  exists req. split; [exact Hlast |]. split; [exact Hcontinue |].
  split; [exact Hlimit |].
  apply Hother. simpl. intros [H|[H|[H|[H|[H|[H|[H|[]]]]]]]]; discriminate H.
Defined.

(** A server answers the discovery of [v1] with a status object under a
    2xx code: the resolve of [Pod] is rejected with the prefixed
    [TypeError], the status object is what the cache holds for [v1]
    afterwards, and the resolve of [Namespace] that follows is rejected with
    the bare [TypeError] in the same state, the transport being handed
    nothing. *)
Lemma resource_cache_frame_witness :
  fst (resource Lab.misled (Some "v1") (Some "Pod") Demo.start)
  = Rejected
      (TypeError "Failed to fetch resource metadata for v1/Pod: Cannot read properties of undefined (reading 'find')")
  /\ apiVersionResourceCache (client Lab.poisoned) !! "v1"
     = Some (asV1APIResourceList (Some Lab.statusOnly))
  /\ resource Lab.misled (Some "v1") (Some "Namespace") Lab.poisoned
     = (Rejected (TypeError "Cannot read properties of undefined (reading 'find')"),
        Lab.poisoned).
Proof.
  destruct (resource_cache_frame Lab.misled "v1" "Pod" Demo.start)
    as (_ & _ & _ & Hfetch & _).
  assert (searchCache (client Demo.start) "v1" "Pod" = Ok None) as Hcold
    by reflexivity.
  destruct (Hfetch Hcold) as [_ Hanswered].
  assert (transport Lab.misled (requests Demo.start)
            (discoveryRequest (client Demo.start) "v1")
          = NetResponse {| statusCode := Some 200; statusMessage := None |}
              (Some Lab.statusOnly)) as Hanswer by reflexivity.
  destruct (Hanswered _ _ Hanswer) as [_ Hcached].
  destruct (Hcached eq_refl) as [Hentry Hthrown].
  destruct (Hthrown "Cannot read properties of undefined (reading 'find')"
              eq_refl eq_refl) as [Hrejected Hlater].
  split; [exact Hrejected |]. split; [exact Hentry |].
  exact (Hlater eq_refl "Namespace").
Defined.

(** A fresh client resolves [v1]/[Namespace], the second entry of the list
    the server answers with, after one fetch; from the cache that fetch
    fills, the same pair is resolved to the same descriptor, and the state
    is left as it is. *)
Lemma resource_cache_discipline_witness :
  fst (resource Demo.runtime (Some "v1") (Some "Namespace") Demo.start)
  = Resolved (Some Lab.namespaceResource)
  /\ requests (snd (resource Demo.runtime (Some "v1") (Some "Namespace") Demo.start))
     = [discoveryRequest Demo.api "v1"]
  /\ resource Demo.runtime (Some "v1") (Some "Namespace") Demo.warm
     = (Resolved (Some Lab.namespaceResource), Demo.warm)
  /\ res_name Lab.namespaceResource = "namespaces"
  /\ res_namespaced Lab.namespaceResource = false.
Proof.
  assert (FirstOfKind "Namespace"
            (rl_resources
               (asV1APIResourceList
                  (deserialize Demo.runtime (Some Demo.coreV1) "V1APIResourceList")))
            Lab.namespaceResource) as Hsecond.
  { exists [Demo.podResource], []. split; [reflexivity |].
    split; [reflexivity |]. repeat constructor. discriminate. }
  destruct (resource_cache_discipline Demo.runtime "v1" "Namespace" Demo.start)
    as [_ Hmiss].
  destruct (resource_cache_discipline Demo.runtime "v1" "Namespace" Demo.warm)
    as [Hhit _].
  assert (apiVersionResourceCache (client Demo.start) !! "v1" = None
          /\ isInherited "v1" = false) as Hcold by (split; reflexivity).
  destruct (Hmiss (or_introl Hcold)) as [_ Hfetch].
  assert (transport Demo.runtime (requests Demo.start)
            (discoveryRequest (client Demo.start) "v1")
          = NetResponse {| statusCode := Some 200; statusMessage := None |}
              (Some Demo.coreV1)) as Hanswer by reflexivity.
  destruct (Hfetch _ _ Hanswer eq_refl eq_refl) as (_ & Hfound & _).
  destruct (Hfound _ Hsecond) as (Hresolved & Hreq & _).
  split; [exact Hresolved |]. split; [exact Hreq |].
  split; [|split; reflexivity].
  apply (Hhit (asV1APIResourceList
                 (deserialize Demo.runtime (Some Demo.coreV1) "V1APIResourceList")));
    [vm_compute; reflexivity | exact Hsecond].
Defined.
